(** * WindowManager.js: a shallow embedding and its verified properties

    The module [WindowManager] of [src/js/WindowManager.js] keeps one
    closure-private [state] object and manipulates the DOM.  The embedding
    below models

    - the [state] object as the record [State];
    - the part of the DOM the code touches (the window elements with their
      inline style, the regions found by [querySelector], the listeners bound
      on them, the children of [document.body] and the listeners bound on
      [document]) as the record [Dom], elements living in a store indexed by
      reference so that aliasing between [state.windows], [state.activeWindow]
      and [state.currentMove] is kept;
    - [console.log] / [console.error] as an output list;
    - JavaScript exceptions by a state-and-exception monad [M].

    What the environment decides is an input of the function that asks for
    it: how the fetch ends, the identifier [generateWindowId] draws from the
    clock and the random generator, the rectangle [getBoundingClientRect]
    reports.  [createWindow] is [async]; it is cut at its [await]s into the
    part that runs at the call and the part that runs when the fetch is over.
    [createCenteredWindow], which only computes two more arguments for
    [createWindow] (by a division that leaves the integers), is not embedded.

    Every function keeps the name it has in the source. *)

From stdpp Require Import gmap strings list pretty.

Local Open Scope Z_scope.
Local Open Scope string_scope.
Local Open Scope list_scope.

(** ** Numbers

    Pixel coordinates and z-indices are modelled by integers; [None] stands
    for the values [undefined] and [NaN], which arithmetic propagates and
    which print as [NaN] in a template literal. *)

Definition num := option Z.

Definition num_sub (a b : num) : num :=
  match a, b with
  | Some x, Some y => Some (x - y)
  | _, _ => None
  end.

Definition num_add (a b : num) : num :=
  match a, b with
  | Some x, Some y => Some (x + y)
  | _, _ => None
  end.

Definition num_toString (a : num) : string :=
  match a with
  | Some x => pretty x
  | None => "NaN"
  end.

(** The template literal [`${n}px`]. *)
Definition px (n : num) : string := num_toString n +:+ "px".

(** ** Data model *)

(** A geometry argument of [createWindow]: [typeof] tells numbers from the
    rest, and the rest is handed to the style object as it is. *)
Inductive GeomArg :=
| GNum (n : num)
| GStr (s : string).

(** The inline style properties the code assigns.  The record holds the
    value assigned, as assigned; [zIndex] is [None] while unset. *)
Record Style := mkStyle {
  position : string;
  width : string;
  maxHeight : string;
  top : string;
  left : string;
  bottom : string;
  right : string;
  zIndex : option Z
}.

Definition emptyStyle : Style := mkStyle "" "" "" "" "" "" "" None.

(** What the four selectors of the code find inside a piece of markup:
    [.title-bar] (with whether its class list holds [inactive]),
    [.title-bar-controls [aria-label="Close"]], [.window-body] and
    [.status-bar]. *)
Record Fragment := mkFragment {
  f_titleBar : option bool;
  f_closeButton : bool;
  f_windowBody : bool;
  f_statusBar : bool
}.

Definition emptyFragment : Fragment := mkFragment None false false false.

(** The nodes listeners are bound on, and the event types in use. *)
Inductive Node := NTitleBar | NWindowBody | NStatusBar | NCloseButton.

Inductive EventType :=
| mousedown | mousemove | mouseup | click
| touchstart | touchmove | touchend.

(** The listener closures [bindWindowEvents] builds.  All of them close over
    the window element they are bound for; [createEventHandler] also closes
    over the [closeButton] found at binding time. *)
Inductive Handler :=
| HGuarded (closeButton : bool) (inner : Handler)
| HActivate
| HStartMove
| HClose
| HTouchClose.

Record Listener := mkListener {
  l_node : Node;
  l_type : EventType;
  l_handler : Handler
}.

#[global] Instance Node_eq_dec : EqDecision Node.
Proof. solve_decision. Defined.
#[global] Instance EventType_eq_dec : EqDecision EventType.
Proof. solve_decision. Defined.

(** An element object. *)
Record Element := mkElement {
  dataset_windowId : option string;
  style : Style;
  content : Fragment;
  listeners : list Listener
}.

(** [document.createElement('div')]. *)
Definition newDiv : Element := mkElement None emptyStyle emptyFragment [].

Abbreviation ElemRef := positive (only parsing).

(** An entry of [state.windows]: [{id, element, appPath}]. *)
Record WindowData := mkWindowData {
  id : string;
  element : ElemRef;
  appPath : string
}.

(** The object stored in [state.currentMove]. *)
Record MoveInfo := mkMoveInfo {
  windowElement : ElemRef;
  startX : num;
  startY : num;
  windowStartX : num;
  windowStartY : num;
  isTouch : bool
}.

(** The closure-private [state] object. *)
Record State := mkState {
  windows : list WindowData;
  maxZIndex : Z;
  activeWindow : option ElemRef;
  currentMove : option MoveInfo
}.

(** [state] as the module creates it. *)
Definition initialState : State := mkState [] 100 None None.

(** The two functions the code binds on [document]. *)
Inductive DocHandler := DHandleMove | DEndMove.

#[global] Instance DocHandler_eq_dec : EqDecision DocHandler.
Proof. solve_decision. Defined.

Record Dom := mkDom {
  objects : gmap positive Element;
  bodyChildren : list ElemRef;
  documentListeners : list (EventType * DocHandler)
}.

(** JavaScript exceptions. *)
Inductive Exn :=
| Error (message : string)
| TypeError (message : string).

Definition message_of (e : Exn) : string :=
  match e with
  | Error m => m
  | TypeError m => m
  end.

(** What reaches the console. *)
Inductive ConsoleEntry :=
| ConsoleLog (text : string)
| ConsoleError (e : Exn).

Record World := mkWorld {
  w_state : State;
  w_dom : Dom;
  w_console : list ConsoleEntry
}.

(** ** The monad of the embedding: state and exceptions *)

Inductive Res (A : Type) :=
| Ret (a : A)
| Throw (e : Exn).
Arguments Ret {A} a.
Arguments Throw {A} e.

Definition M (A : Type) : Type := World → Res A * World.

Definition ret {A} (a : A) : M A := λ w, (Ret a, w).

Definition bind {A B} (m : M A) (k : A → M B) : M B :=
  λ w, match m w with
       | (Ret a, w') => k a w'
       | (Throw e, w') => (Throw e, w')
       end.

Definition throw {A} (e : Exn) : M A := λ w, (Throw e, w).

(** [try { body } catch (error) { handler }]. *)
Definition try_catch {A} (body : M A) (handler : Exn → M A) : M A :=
  λ w, match body w with
       | (Ret a, w') => (Ret a, w')
       | (Throw e, w') => handler e w'
       end.

#[global] Instance M_ret : MRet M := @ret.
#[global] Instance M_bind : MBind M := λ A B k m, bind m k.

Definition getState : M State := λ w, (Ret (w_state w), w).
Definition getDom : M Dom := λ w, (Ret (w_dom w), w).

Definition modifyState (f : State → State) : M unit :=
  λ w, (Ret (), mkWorld (f (w_state w)) (w_dom w) (w_console w)).

Definition modifyDom (f : Dom → Dom) : M unit :=
  λ w, (Ret (), mkWorld (w_state w) (f (w_dom w)) (w_console w)).

Definition emit (c : ConsoleEntry) : M unit :=
  λ w, (Ret (), mkWorld (w_state w) (w_dom w) (w_console w ++ [c])).

(** [array.forEach(f)]. *)
Fixpoint forEach {A} (l : list A) (f : A → M unit) : M unit :=
  match l with
  | [] => mret ()
  | x :: l' => f x;; forEach l' f
  end.

(** ** Field updates *)

Definition set_windows (v : list WindowData) (s : State) : State :=
  mkState v (maxZIndex s) (activeWindow s) (currentMove s).
Definition set_maxZIndex (v : Z) (s : State) : State :=
  mkState (windows s) v (activeWindow s) (currentMove s).
Definition set_activeWindow (v : option ElemRef) (s : State) : State :=
  mkState (windows s) (maxZIndex s) v (currentMove s).
Definition set_currentMove (v : option MoveInfo) (s : State) : State :=
  mkState (windows s) (maxZIndex s) (activeWindow s) v.

Definition set_objects (v : gmap positive Element) (d : Dom) : Dom :=
  mkDom v (bodyChildren d) (documentListeners d).
Definition set_bodyChildren (v : list ElemRef) (d : Dom) : Dom :=
  mkDom (objects d) v (documentListeners d).
Definition set_documentListeners (v : list (EventType * DocHandler)) (d : Dom) : Dom :=
  mkDom (objects d) (bodyChildren d) v.

Definition set_style (f : Style → Style) (e : Element) : Element :=
  mkElement (dataset_windowId e) (f (style e)) (content e) (listeners e).
Definition set_content (v : Fragment) (e : Element) : Element :=
  mkElement (dataset_windowId e) (style e) v (listeners e).
Definition set_dataset_windowId (v : string) (e : Element) : Element :=
  mkElement (Some v) (style e) (content e) (listeners e).
Definition add_listener (l : Listener) (e : Element) : Element :=
  mkElement (dataset_windowId e) (style e) (content e) (listeners e ++ [l]).

Definition set_zIndex (z : Z) (s : Style) : Style :=
  mkStyle (position s) (width s) (maxHeight s) (top s) (left s) (bottom s) (right s) (Some z).
Definition set_left (v : string) (s : Style) : Style :=
  mkStyle (position s) (width s) (maxHeight s) (top s) v (bottom s) (right s) (zIndex s).
Definition set_top (v : string) (s : Style) : Style :=
  mkStyle (position s) (width s) (maxHeight s) v (left s) (bottom s) (right s) (zIndex s).

(** [titleBar.classList.add('inactive')] and [.remove('inactive')] on the
    title bar of a piece of markup, when it has one. *)
Definition set_titleBar_inactive (b : bool) (e : Element) : Element :=
  match f_titleBar (content e) with
  | Some _ =>
      set_content (mkFragment (Some b) (f_closeButton (content e))
                     (f_windowBody (content e)) (f_statusBar (content e))) e
  | None => e
  end.

(** ** DOM primitives *)

(** Mutation of the element object behind a reference. *)
Definition updateElement (r : ElemRef) (f : Element → Element) : M unit :=
  modifyDom (λ d, set_objects (alter f r (objects d)) d).

(** Reading a property of the element object behind a reference. *)
Definition readElement {A} (r : ElemRef) (f : Element → A) (dflt : A) : M A :=
  d ← getDom; mret (from_option f dflt (objects d !! r)).

(** [document.createElement('div')]: a new object, under a reference no
    other object has. *)
Definition createElement : M ElemRef :=
  d ← getDom;
  let r := fresh (dom (objects d)) in
  modifyDom (set_objects (<[r := newDiv]> (objects d)));;
  mret r.

(** [document.body.appendChild(el)]: the node becomes the last child (a node
    that is a child already is moved). *)
Definition appendChild (r : ElemRef) : M unit :=
  modifyDom (λ d, set_bodyChildren (filter (λ c, c ≠ r) (bodyChildren d) ++ [r]) d).

(** [el.remove()]. *)
Definition removeNode (r : ElemRef) : M unit :=
  modifyDom (λ d, set_bodyChildren (filter (λ c, c ≠ r) (bodyChildren d)) d).

(** [document.addEventListener(type, h)]: a listener already in the list is
    not added a second time. *)
Definition addDocumentListener (t : EventType) (h : DocHandler) : M unit :=
  modifyDom (λ d,
    if decide ((t, h) ∈ documentListeners d) then d
    else set_documentListeners (documentListeners d ++ [(t, h)]) d).

(** [document.removeEventListener(type, h)]. *)
Definition removeDocumentListener (t : EventType) (h : DocHandler) : M unit :=
  modifyDom (λ d,
    set_documentListeners (filter (λ l, l ≠ (t, h)) (documentListeners d)) d).

(** ** The source, function by function *)

(** [log]. *)
Definition log (message : string) : M unit :=
  emit (ConsoleLog ("窗口管理器：" +:+ message)).

(** [el.dataset.windowId || '未知窗口'] on an element object. *)
Definition idOrUnknown (e : Element) : string :=
  match dataset_windowId e with
  | Some s => if decide (s = "") then "未知窗口" else s
  | None => "未知窗口"
  end.

(** [windowElement.dataset.windowId || '未知窗口']. *)
Definition windowIdOf (r : ElemRef) : M string :=
  readElement r idOrUnknown "未知窗口".

(** [activateWindow]. *)
Definition activateWindow (windowElement : ElemRef) : M unit :=
  windowId ← windowIdOf windowElement;
  log ("激活：" +:+ windowId);;
  modifyState (set_activeWindow (Some windowElement));;
  modifyState (λ s, set_maxZIndex (maxZIndex s + 1) s);;
  s ← getState;
  updateElement windowElement (set_style (set_zIndex (maxZIndex s)));;
  log ("激活：" +:+ windowId +:+ "：zIndex：" +:+ pretty (maxZIndex s));;
  forEach (windows s) (λ win,
    updateElement (element win) (set_titleBar_inactive true));;
  updateElement windowElement (set_titleBar_inactive false);;
  log ("激活：" +:+ windowId +:+ "：完成").

(** An event object, by the properties the code reads: [type], [clientX]
    and [clientY] (undefined on a touch event), [touches] (undefined on a
    mouse event; each touch with its [clientX] and [clientY]), and whether
    [target] is the close button of the window or lies inside it. *)
Record Event := mkEvent {
  type : EventType;
  clientX : num;
  clientY : num;
  touches : option (list (Z * Z));
  targetOnClose : bool
}.

Definition MouseEvent (t : EventType) (x y : Z) (onClose : bool) : Event :=
  mkEvent t (Some x) (Some y) None onClose.

Definition TouchEvent (t : EventType) (ts : list (Z * Z)) (onClose : bool) : Event :=
  mkEvent t None None (Some ts) onClose.

(** The rectangle [getBoundingClientRect()] reports: the layout engine's
    answer, an input of the model. *)
Record Rect := mkRect {
  rect_left : num;
  rect_top : num
}.

(** [event.touches[0]], then [.clientX] and [.clientY] of it: a [TypeError]
    when [touches] is undefined or empty. *)
Definition firstTouch (event : Event) : M (num * num) :=
  match touches event with
  | Some ((x, y) :: _) => mret (Some x, Some y)
  | Some [] => throw (TypeError "Cannot read properties of undefined (reading 'clientX')")
  | None => throw (TypeError "Cannot read properties of undefined (reading '0')")
  end.

(** [startMove].  [rect] is what [windowElement.getBoundingClientRect()]
    returns at the call. *)
Definition startMove (windowElement : ElemRef) (event : Event) (rect : Rect) : M unit :=
  windowId ← windowIdOf windowElement;
  activateWindow windowElement;;
  log ("窗口：" +:+ windowId +:+ "：移动：开始");;
  c ← (if decide (type event = touchstart) then firstTouch event
       else mret (clientX event, clientY event));
  modifyState (set_currentMove (Some
    (mkMoveInfo windowElement (fst c) (snd c) (rect_left rect) (rect_top rect)
       (bool_decide (type event = touchstart)))));;
  s ← getState;
  let eventTypes :=
    if from_option isTouch false (currentMove s)
    then [touchmove; touchend] else [mousemove; mouseup] in
  forEach eventTypes (λ t,
    addDocumentListener t
      (if decide (t = touchmove ∨ t = mousemove) then DHandleMove else DEndMove)).

(** [handleMove]. *)
Definition handleMove (event : Event) : M unit :=
  s ← getState;
  match currentMove s with
  | None => mret ()
  | Some m =>
      let move (c : num * num) : M unit :=
        let deltaX := num_sub (fst c) (startX m) in
        let deltaY := num_sub (snd c) (startY m) in
        updateElement (windowElement m)
          (set_style (set_left (px (num_add (windowStartX m) deltaX))));;
        updateElement (windowElement m)
          (set_style (set_top (px (num_add (windowStartY m) deltaY)))) in
      if isTouch m then
        match touches event with
        | None => throw (TypeError "Cannot read properties of undefined (reading 'length')")
        | Some [] => mret ()
        | Some ((x, y) :: _) => move (Some x, Some y)
        end
      else move (clientX event, clientY event)
  end.

(** [endMove]. *)
Definition endMove : M unit :=
  s ← getState;
  match currentMove s with
  | None => mret ()
  | Some m =>
      windowId ← windowIdOf (windowElement m);
      log ("移动：" +:+ windowId +:+ "：结束");;
      let eventTypes :=
        if isTouch m then [touchmove; touchend] else [mousemove; mouseup] in
      forEach eventTypes (λ t,
        removeDocumentListener t
          (if decide (t = touchmove ∨ t = mousemove) then DHandleMove else DEndMove));;
      modifyState (set_currentMove None)
  end.

(** [closeWindow]. *)
Definition closeWindow (windowElement : ElemRef) : M unit :=
  windowId ← windowIdOf windowElement;
  log ("关闭：" +:+ windowId);;
  removeNode windowElement;;
  s ← getState;
  match list_find (λ win, element win = windowElement) (windows s) with
  | Some (index, _) => modifyState (set_windows (delete index (windows s)))
  | None => mret ()
  end;;
  s ← getState;
  (if decide (activeWindow s = Some windowElement) then
     modifyState (set_activeWindow None);;
     s ← getState;
     match last (windows s) with
     | Some win => activateWindow (element win)
     | None => mret ()
     end
   else mret ());;
  log ("关闭：" +:+ windowId +:+ "：完成").

(** [node.addEventListener(type, handler)] on a node inside the window. *)
Definition addEventListener (windowElement : ElemRef) (n : Node) (t : EventType)
    (h : Handler) : M unit :=
  updateElement windowElement (add_listener (mkListener n t h)).

(** [bindWindowEvents].  [windowStatusBar.addEventListener] is reached when
    [windowBody] is found; on a missing status bar it is a call on [null]. *)
Definition bindWindowEvents (windowElement : ElemRef) : M unit :=
  windowId ← windowIdOf windowElement;
  log ("绑定事件：" +:+ windowId);;
  c ← readElement windowElement content emptyFragment;
  let titleBar := f_titleBar c in
  let closeButton := f_closeButton c in
  match titleBar with
  | None => log "绑定事件：缺少标题栏"
  | Some _ =>
      let createEventHandler := HGuarded closeButton in
      let activateHandler := HActivate in
      addEventListener windowElement NTitleBar mousedown (createEventHandler activateHandler);;
      addEventListener windowElement NTitleBar touchstart (createEventHandler activateHandler);;
      let windowBody := f_windowBody c in
      (if windowBody then
         addEventListener windowElement NWindowBody mousedown activateHandler;;
         addEventListener windowElement NWindowBody touchstart activateHandler
       else mret ());;
      let windowStatusBar := f_statusBar c in
      (if windowBody then
         if windowStatusBar then
           addEventListener windowElement NStatusBar mousedown activateHandler;;
           addEventListener windowElement NStatusBar touchstart activateHandler
         else throw (TypeError "Cannot read properties of null (reading 'addEventListener')")
       else mret ());;
      let startMoveHandler := HStartMove in
      addEventListener windowElement NTitleBar mousedown (createEventHandler startMoveHandler);;
      addEventListener windowElement NTitleBar touchstart (createEventHandler startMoveHandler);;
      if closeButton then
        let closeHandler := HClose in
        addEventListener windowElement NCloseButton click closeHandler;;
        addEventListener windowElement NCloseButton touchend HTouchClose
      else log "绑定事件：缺少关闭按钮"
  end.

(** How [await fetch(appPath)] followed by [await response.text()] ends:
    the promise of [fetch] rejects, or it resolves to a response with its
    [ok], [status] and [statusText], whose [text()] rejects or resolves to
    markup. *)
Inductive FetchOutcome :=
| FetchRejected (e : Exn)
| FetchResponse (ok : bool) (status : Z) (statusText : string) (text : Exn + Fragment).

(** The six geometry arguments of [createWindow]; [None] is an argument left
    out (or [undefined]), for which the default of the parameter list is
    taken. *)
Record Geometry := mkGeometry {
  g_width : option GeomArg;
  g_height : option GeomArg;
  g_top : option GeomArg;
  g_left : option GeomArg;
  g_bottom : option GeomArg;
  g_right : option GeomArg
}.

Definition noGeometry : Geometry := mkGeometry None None None None None None.

(** [typeof v === 'number' ? `${v}px` : v]. *)
Definition cssLength (v : GeomArg) : string :=
  match v with
  | GNum n => px n
  | GStr s => s
  end.

(** [windowElement.innerHTML = appContent]: the children are replaced, and
    the listeners bound on the former ones go with them. *)
Definition set_innerHTML (c : Fragment) (e : Element) : Element :=
  mkElement (dataset_windowId e) (style e) c [].

(** The test [win => win.appPath === appPath] of the duplicate search. *)
Definition hasAppPath (p : string) (win : WindowData) : Prop := appPath win = p.

#[global] Instance hasAppPath_dec p win : Decision (hasAppPath p win) :=
  decide (appPath win = p).

(** [createWindow] runs in two steps, the [await] between them letting other
    callbacks run.  [createWindow_start] is the part before
    [await fetch(appPath)]: it returns [Some result] when the function
    returns there, and [None] when it goes on to fetch. *)
Definition createWindow_start (appPath : string) (checkDuplicate : option bool)
    : M (option (option ElemRef)) :=
  let checkDuplicate := default false checkDuplicate in
  log ("创建：" +:+ appPath);;
  if checkDuplicate then
    s ← getState;
    match list_find (hasAppPath appPath) (windows s) with
    | Some (_, existingWindow) =>
        log ("创建：检测到重复窗口：" +:+ id existingWindow);;
        activateWindow (element existingWindow);;
        mret (Some (Some (element existingWindow)))
    | None => mret None
    end
  else mret None.

(** [createWindow_resume] is the part after the two [await]s, with the
    [catch] clause of the function.  [windowId] is what [generateWindowId()]
    returns. *)
Definition createWindow_resume (appPath : string) (g : Geometry)
    (outcome : FetchOutcome) (windowId : string) : M (option ElemRef) :=
  let width := default (GStr "400") (g_width g) in
  let height := default (GStr "300") (g_height g) in
  let top := default (GStr "auto") (g_top g) in
  let left := default (GStr "auto") (g_left g) in
  let bottom := default (GStr "auto") (g_bottom g) in
  let right := default (GStr "auto") (g_right g) in
  try_catch
    (appContent ←
       match outcome with
       | FetchRejected e => throw e
       | FetchResponse ok status statusText text =>
           if negb ok then
             throw (Error ("创建：错误：" +:+ pretty status +:+ " " +:+ statusText))
           else match text with
                | inl e => throw e
                | inr c => mret c
                end
       end;
     log ("创建：" +:+ appPath +:+ "：找到");;
     windowElement ← createElement;
     updateElement windowElement (set_dataset_windowId windowId);;
     s ← getState;
     updateElement windowElement (set_style (λ _,
       mkStyle "absolute" (cssLength width) (cssLength height) (cssLength top)
         (cssLength left) (cssLength bottom) (cssLength right)
         (Some (maxZIndex s + 1))));;
     modifyState (λ s, set_maxZIndex (maxZIndex s + 1) s);;
     updateElement windowElement (set_innerHTML appContent);;
     appendChild windowElement;;
     log ("创建：" +:+ windowId +:+ "：添加到DOM：完成");;
     let windowData := mkWindowData windowId windowElement appPath in
     modifyState (λ s, set_windows (windows s ++ [windowData]) s);;
     bindWindowEvents windowElement;;
     activateWindow windowElement;;
     log ("创建：" +:+ windowId +:+ "：完成");;
     mret (Some windowElement))
    (λ error,
       log ("创建：失败：" +:+ message_of error);;
       emit (ConsoleError error);;
       mret None).

(** [createWindow] when no other callback runs while the fetch is pending. *)
Definition createWindow (appPath : string) (g : Geometry)
    (checkDuplicate : option bool) (outcome : FetchOutcome) (windowId : string)
    : M (option ElemRef) :=
  r ← createWindow_start appPath checkDuplicate;
  match r with
  | Some result => mret result
  | None => createWindow_resume appPath g outcome windowId
  end.

(** The two accessors of the public interface. *)
Definition getWindows (w : World) : list ElemRef :=
  element <$> windows (w_state w).

Definition getActiveWindow (w : World) : option ElemRef :=
  activeWindow (w_state w).

(** ** Event delivery *)

(** An exception a listener lets escape is reported and ends that listener
    only. *)
Definition reported (m : M unit) : M unit :=
  try_catch m (λ error, emit (ConsoleError error)).

(** A listener bound by [bindWindowEvents] for [windowElement], called with
    [event]; [rect] is the window's rectangle at that time.  The touch
    listener of the close button calls [event.preventDefault()] first, which
    changes nothing the model holds. *)
Fixpoint runHandler (h : Handler) (windowElement : ElemRef) (event : Event)
    (rect : Rect) : M unit :=
  match h with
  | HGuarded closeButton inner =>
      if closeButton && targetOnClose event then mret ()
      else runHandler inner windowElement event rect
  | HActivate => activateWindow windowElement
  | HStartMove => startMove windowElement event rect
  | HClose => closeWindow windowElement
  | HTouchClose => closeWindow windowElement
  end.

(** [event] reaches node [n] of the window: the listeners bound there for
    its type run in the order they were bound. *)
Definition deliver (windowElement : ElemRef) (n : Node) (event : Event)
    (rect : Rect) : M unit :=
  ls ← readElement windowElement listeners [];
  forEach (filter (λ l, l_node l = n ∧ l_type l = type event) ls) (λ l,
    reported (runHandler (l_handler l) windowElement event rect)).

(** [event] reaches [document]. *)
Definition deliverDocument (event : Event) : M unit :=
  d ← getDom;
  forEach (filter (λ l, l.1 = type event) (documentListeners d)) (λ l,
    reported (match l.2 with
              | DHandleMove => handleMove event
              | DEndMove => endMove
              end)).

(** ** Vocabulary of the statements *)

(** The objects after [titleBar.classList.add('inactive')] on every window
    of a list. *)
Definition markInactive (ws : list WindowData) (objs : gmap positive Element)
    : gmap positive Element :=
  foldl (λ m win, alter (set_titleBar_inactive true) (element win) m) objs ws.

(** The name a function logs an element under. *)
Definition nameOf (r : ElemRef) (w : World) : string :=
  from_option idOrUnknown "未知窗口" (objects (w_dom w) !! r).

(** The world [activateWindow el] leaves. *)
Definition activated (el : ElemRef) (w : World) : World :=
  let s := w_state w in
  let z := maxZIndex s + 1 in
  mkWorld
    (mkState (windows s) z (Some el) (currentMove s))
    (set_objects
       (alter (set_titleBar_inactive false) el
          (markInactive (windows s)
             (alter (set_style (set_zIndex z)) el (objects (w_dom w)))))
       (w_dom w))
    (w_console w ++
       [ConsoleLog ("窗口管理器：" +:+ "激活：" +:+ nameOf el w);
        ConsoleLog ("窗口管理器：" +:+ "激活：" +:+ nameOf el w +:+ "：zIndex：" +:+ pretty z);
        ConsoleLog ("窗口管理器：" +:+ "激活：" +:+ nameOf el w +:+ "：完成")]).

(** The z-index and the [inactive] marker of the title bar of an element,
    read through its reference. *)
Definition zIndexOf (r : ElemRef) (w : World) : option Z :=
  e ← objects (w_dom w) !! r; zIndex (style e).

Definition titleBarOf (r : ElemRef) (w : World) : option bool :=
  e ← objects (w_dom w) !! r; f_titleBar (content e).

Definition styleOf (r : ElemRef) (w : World) : option Style :=
  style <$> objects (w_dom w) !! r.

Definition listenersOf (r : ElemRef) (w : World) : list Listener :=
  from_option listeners [] (objects (w_dom w) !! r).

(** The fetch of [createWindow] did not deliver markup: the promise of
    [fetch] rejected (a failure at the network level), the response is not
    [ok], or reading its body rejected. *)
Definition fetchFailed (outcome : FetchOutcome) : Prop :=
  match outcome with
  | FetchRejected _ => True
  | FetchResponse ok _ _ text => ok = false ∨ ∃ e, text = inl e
  end.

(** A response that is [ok] and carries the markup [c]. *)
Definition fetched (c : Fragment) (outcome : FetchOutcome) : Prop :=
  ∃ status statusText, outcome = FetchResponse true status statusText (inr c).

(** The markup on which [bindWindowEvents] runs to its end: it has no title
    bar (the function returns at once), or it has no window body, or it has
    a status bar. *)
Definition wiringCompletes (c : Fragment) : bool :=
  match f_titleBar c with
  | None => true
  | Some _ => negb (f_windowBody c) || f_statusBar c
  end.

(** The listeners [bindWindowEvents] has bound when it ran to its end. *)
Definition wiring (c : Fragment) : list Listener :=
  match f_titleBar c with
  | None => []
  | Some _ =>
      [mkListener NTitleBar mousedown (HGuarded (f_closeButton c) HActivate);
       mkListener NTitleBar touchstart (HGuarded (f_closeButton c) HActivate)]
      ++ (if f_windowBody c then
            [mkListener NWindowBody mousedown HActivate;
             mkListener NWindowBody touchstart HActivate;
             mkListener NStatusBar mousedown HActivate;
             mkListener NStatusBar touchstart HActivate]
          else [])
      ++ [mkListener NTitleBar mousedown (HGuarded (f_closeButton c) HStartMove);
          mkListener NTitleBar touchstart (HGuarded (f_closeButton c) HStartMove)]
      ++ (if f_closeButton c then
            [mkListener NCloseButton click HClose;
             mkListener NCloseButton touchend HTouchClose]
          else [])
  end.

(** The pointer position [handleMove] reads from an event during the drag
    [m]: the first touch of a touch drag, [clientX] and [clientY]
    otherwise. *)
Definition pointerAt (m : MoveInfo) (event : Event) : option (num * num) :=
  if isTouch m then
    match touches event with
    | Some ((x, y) :: _) => Some (Some x, Some y)
    | _ => None
    end
  else Some (clientX event, clientY event).

(** The two listeners [startMove] puts on [document] for the drag [m], and
    [endMove] takes off. *)
Definition moveListener (m : MoveInfo) : EventType * DocHandler :=
  (if isTouch m then touchmove else mousemove, DHandleMove).

Definition endListener (m : MoveInfo) : EventType * DocHandler :=
  (if isTouch m then touchend else mouseup, DEndMove).

(** The entries of [state.windows] once the first one holding [el] is
    spliced out. *)
Definition withoutWindow (el : ElemRef) (ws : list WindowData) : list WindowData :=
  match list_find (λ win, element win = el) ws with
  | Some (index, _) => delete index ws
  | None => ws
  end.

(** The inline style [createWindow] assigns to a new window. *)
Definition createdStyle (g : Geometry) (z : Z) : Style :=
  mkStyle "absolute"
    (cssLength (default (GStr "400") (g_width g)))
    (cssLength (default (GStr "300") (g_height g)))
    (cssLength (default (GStr "auto") (g_top g)))
    (cssLength (default (GStr "auto") (g_left g)))
    (cssLength (default (GStr "auto") (g_bottom g)))
    (cssLength (default (GStr "auto") (g_right g)))
    (Some z).

(** The world in which [createWindow] calls [activateWindow] on the window
    it has built from the markup [c]: the window is styled, filled,
    attached, registered and wired; [k] is what has been logged since. *)
Definition built (appPath : string) (g : Geometry) (c : Fragment)
    (windowId : string) (k : list ConsoleEntry) (w : World) : World :=
  let s := w_state w in
  let d := w_dom w in
  let r := fresh (dom (objects d)) in
  mkWorld
    (mkState (windows s ++ [mkWindowData windowId r appPath]) (maxZIndex s + 1)
       (activeWindow s) (currentMove s))
    (mkDom
       (<[r := mkElement (Some windowId) (createdStyle g (maxZIndex s + 1)) c (wiring c)]>
          (objects d))
       (filter (λ x, x ≠ r) (bodyChildren d) ++ [r])
       (documentListeners d))
    (w_console w ++ k).

(** [createWindow] gets past its duplicate check and fetches. *)
Definition fetches (appPath : string) (checkDuplicate : option bool) (w : World) : Prop :=
  default false checkDuplicate = false
  ∨ list_find (hasAppPath appPath) (windows (w_state w)) = None.

(** The pointer position [startMove] records: the first touch of a
    [touchstart], [clientX] and [clientY] of any other event. *)
Definition pressPoint (event : Event) : option (num * num) :=
  if decide (type event = touchstart) then
    match touches event with
    | Some ((x, y) :: _) => Some (Some x, Some y)
    | _ => None
    end
  else Some (clientX event, clientY event).

(** The markup of a window once it is focused: its title bar, if it has
    one, is not marked inactive. *)
Definition focusedMarkup (c : Fragment) : Fragment :=
  mkFragment ((λ _, false) <$> f_titleBar c) (f_closeButton c) (f_windowBody c)
    (f_statusBar c).

(** ** Sample inputs *)

(** The page before any window is opened. *)
Definition emptyWorld : World := mkWorld initialState (mkDom ∅ [] []) [].

(** A response with status 200 that carries the markup [c]. *)
Definition okResponse (c : Fragment) : FetchOutcome :=
  FetchResponse true 200 "OK" (inr c).

(** Markup with all four regions. *)
Definition fullMarkup : Fragment := mkFragment (Some false) true true true.

(** Markup with a title bar and a window body, without a status bar. *)
Definition noStatusBarMarkup : Fragment := mkFragment (Some false) true true false.

(** Markup without a title bar whose close control is there. *)
Definition noTitleBarMarkup : Fragment := mkFragment None true true true.

(** Width 400 and height 300 given as numbers. *)
Definition size400x300 : Geometry :=
  mkGeometry (Some (GNum (Some 400))) (Some (GNum (Some 300))) None None None None.

(** The world after [createWindow('/apps/notes.html', 400, 300)] on the
    empty page, and after a second window is opened next to it. *)
Definition oneWindow : World :=
  (createWindow "/apps/notes.html" size400x300 None (okResponse fullMarkup)
     "win_1_aaaa" emptyWorld).2.

Definition twoWindows : World :=
  (createWindow "/apps/paint.html" size400x300 None (okResponse fullMarkup)
     "win_2_bbbb" oneWindow).2.

(** The world after a window is opened on the empty page from markup that
    has a close control and no title bar. *)
Definition untitledWindow : World :=
  (createWindow "/apps/clock.html" size400x300 None (okResponse noTitleBarMarkup)
     "win_1_aaaa" emptyWorld).2.

(** A press on the title bar of the first window, with the rectangle the
    window has then, and the world it leaves: the first window is dragged. *)
Definition pressFirst : Event := MouseEvent mousedown 120 80 false.
Definition rectFirst : Rect := mkRect (Some 100) (Some 50).

Definition draggingFirst : World := (startMove 1 pressFirst rectFirst twoWindows).2.

(** A press on the title bar of the second window while the first is
    dragged. *)
Definition pressSecond : Event := MouseEvent mousedown 300 200 false.
Definition rectSecond : Rect := mkRect (Some 250) (Some 150).

(** The pointer has moved by (30, 15) since the press on the first
    window. *)
Definition moveFirst : Event := MouseEvent mousemove 150 95 false.

(** ** Sessions *)

(** What the page and the user do to the module: the calls of the public
    interface and the events that reach a node of a window or [document].  A
    call of [createWindow] is two actions, one for each of its parts, so that
    anything may happen while the fetch is pending. *)
Inductive Action :=
| CreateStart (appPath : string) (checkDuplicate : option bool)
| CreateResume (appPath : string) (g : Geometry) (outcome : FetchOutcome)
    (windowId : string)
| Activate (el : ElemRef)
| Close (el : ElemRef)
| Deliver (el : ElemRef) (n : Node) (event : Event) (rect : Rect)
| DeliverDocument (event : Event).

(** The world an action leaves. *)
Definition perform (a : Action) (w : World) : World :=
  match a with
  | CreateStart appPath checkDuplicate =>
      (createWindow_start appPath checkDuplicate w).2
  | CreateResume appPath g outcome windowId =>
      (createWindow_resume appPath g outcome windowId w).2
  | Activate el => (activateWindow el w).2
  | Close el => (closeWindow el w).2
  | Deliver el n event rect => (deliver el n event rect w).2
  | DeliverDocument event => (deliverDocument event w).2
  end.

Definition run (acts : list Action) (w : World) : World :=
  foldl (λ w a, perform a w) w acts.

(** [R] relates the world a computation starts in to the world it leaves,
    whether it returns or throws. *)
Definition keeps {A} (R : relation World) (m : M A) : Prop :=
  ∀ w, R w (m w).2.

(** [maxZIndex] has not gone down. *)
Definition grows (w w' : World) : Prop :=
  (maxZIndex (w_state w) ≤ maxZIndex (w_state w'))%Z.

(** The drag state is as it was: [currentMove] and the listeners on
    [document]. *)
Definition sameDrag (w w' : World) : Prop :=
  currentMove (w_state w') = currentMove (w_state w)
  ∧ documentListeners (w_dom w') = documentListeners (w_dom w).

(** The registry is as it was: [windows], the children of the body and the
    element objects there are. *)
Definition sameRegistry (w w' : World) : Prop :=
  windows (w_state w') = windows (w_state w)
  ∧ bodyChildren (w_dom w') = bodyChildren (w_dom w)
  ∧ dom (objects (w_dom w')) = dom (objects (w_dom w)).

(** The stacking is as it was: [maxZIndex] and the z-index of every
    element. *)
Definition sameStack (w w' : World) : Prop :=
  maxZIndex (w_state w') = maxZIndex (w_state w)
  ∧ ∀ r, zIndexOf r w' = zIndexOf r w.

(** Nothing has changed but the markup of elements, the listeners bound
    inside them and the console. *)
Definition sameStyles (w w' : World) : Prop :=
  w_state w' = w_state w
  ∧ bodyChildren (w_dom w') = bodyChildren (w_dom w)
  ∧ documentListeners (w_dom w') = documentListeners (w_dom w)
  ∧ ∀ r, styleOf r w' = styleOf r w.

(** [P] holds afterwards if it held before. *)
Definition pres (P : World → Prop) (w w' : World) : Prop := P w → P w'.

(** No element is stacked above [maxZIndex]. *)
Definition stackBound (w : World) : Prop :=
  ∀ r z, zIndexOf r w = Some z → (z ≤ maxZIndex (w_state w))%Z.

(** The registry is sound: no element is registered twice, every registered
    element is an object of the store and a child of the body, and no child
    of the body is listed twice. *)
Definition registryOk (w : World) : Prop :=
  NoDup (getWindows w)
  ∧ (∀ r, r ∈ getWindows w → is_Some (objects (w_dom w) !! r))
  ∧ (∀ r, r ∈ getWindows w → r ∈ bodyChildren (w_dom w))
  ∧ NoDup (bodyChildren (w_dom w)).

(** The four listeners [startMove] may put on [document]. *)
Definition dragListeners : list (EventType * DocHandler) :=
  [(touchmove, DHandleMove); (touchend, DEndMove);
   (mousemove, DHandleMove); (mouseup, DEndMove)].

(** The listeners on [document] are sound: none is bound twice, each is one
    of [startMove]'s, and while a drag is active its two listeners are
    bound. *)
Definition dragWired (w : World) : Prop :=
  NoDup (documentListeners (w_dom w))
  ∧ (∀ l, l ∈ documentListeners (w_dom w) → l ∈ dragListeners)
  ∧ (∀ m, currentMove (w_state w) = Some m →
       moveListener m ∈ documentListeners (w_dom w)
       ∧ endListener m ∈ documentListeners (w_dom w)).



(** The world in which [createWindow] calls [bindWindowEvents]: the new
    element is styled, filled, attached and registered. *)
Definition assembled (appPath : string) (g : Geometry) (c : Fragment)
    (windowId : string) (w : World) : World :=
  let s := w_state w in
  let d := w_dom w in
  let r := fresh (dom (objects d)) in
  mkWorld
    (mkState (windows s ++ [mkWindowData windowId r appPath]) (maxZIndex s + 1)
       (activeWindow s) (currentMove s))
    (mkDom
       (<[r := mkElement (Some windowId) (createdStyle g (maxZIndex s + 1)) c []]>
          (objects d))
       (filter (λ x, x ≠ r) (bodyChildren d) ++ [r])
       (documentListeners d))
    (w_console w
     ++ [ConsoleLog ("窗口管理器：" +:+ "创建：" +:+ appPath +:+ "：找到");
         ConsoleLog ("窗口管理器：" +:+ "创建：" +:+ windowId +:+ "：添加到DOM：完成")]).

(** [document.addEventListener] on the list of listeners. *)
Definition withListener (x : EventType * DocHandler)
    (l : list (EventType * DocHandler)) : list (EventType * DocHandler) :=
  if decide (x ∈ l) then l else l ++ [x].

(** Two worlds with the same state object and the same DOM. *)
Definition sameWorld (w w' : World) : Prop :=
  w_state w' = w_state w ∧ w_dom w' = w_dom w.

(** ** Running the monad: the effect of each function on a world *)

(** The proofs run the monadic code on a world whose records are given down
    to their fields: [mrun] unfolds the operations of the monad, the DOM
    primitives and the field updates, and reduces the projections as it
    goes; [erun] does the same for the updates of one element; [mproj] only
    reduces projections of records that are given. *)
Ltac mrun :=
  cbv beta iota zeta delta
    [mbind mret M_bind M_ret bind ret throw try_catch windowIdOf readElement
     log emit modifyState updateElement modifyDom getState getDom
     addEventListener appendChild removeNode createElement
     addDocumentListener removeDocumentListener
     set_objects set_bodyChildren set_documentListeners set_windows
     set_maxZIndex set_activeWindow set_currentMove
     w_state w_dom w_console objects bodyChildren documentListeners
     windows maxZIndex activeWindow currentMove].

Ltac mrun_in H :=
  cbv beta iota zeta delta
    [mbind mret M_bind M_ret bind ret throw try_catch windowIdOf readElement
     log emit modifyState updateElement modifyDom getState getDom
     addEventListener appendChild removeNode createElement
     addDocumentListener removeDocumentListener
     set_objects set_bodyChildren set_documentListeners set_windows
     set_maxZIndex set_activeWindow set_currentMove
     w_state w_dom w_console objects bodyChildren documentListeners
     windows maxZIndex activeWindow currentMove] in H.

Ltac erun :=
  cbv beta iota zeta delta
    [add_listener set_style set_content set_dataset_windowId set_innerHTML
     newDiv dataset_windowId style content listeners].

Ltac mproj :=
  cbn [w_state w_dom w_console objects bodyChildren documentListeners windows
       maxZIndex activeWindow currentMove fst snd].

Ltac mproj_in H :=
  cbn [w_state w_dom w_console objects bodyChildren documentListeners windows
       maxZIndex activeWindow currentMove fst snd] in H.

(** *** [activateWindow] *)

Lemma forEach_markInactive ws w :
  forEach ws (λ win, updateElement (element win) (set_titleBar_inactive true)) w
  = (Ret (), mkWorld (w_state w)
               (set_objects (markInactive ws (objects (w_dom w))) (w_dom w))
               (w_console w)).
Proof.
  revert w. induction ws as [|win ws IH]; intros [s [o b l] c]; [done|].
  cbn [forEach]. mrun. mrun_in IH. rewrite IH. mrun. done.
Qed.

Lemma activateWindow_run el w : activateWindow el w = (Ret (), activated el w).
Proof.
  destruct w as [[ws z a m] [o b l] c]. unfold activateWindow, activated, nameOf.
  pose proof forEach_markInactive as H. mrun_in H.
  mrun. rewrite H. mrun.
  rewrite <- !(assoc_L (++)). done.
Qed.

(** Marking title bars touches nothing but the marker. *)
Lemma set_titleBar_inactive_style b e : style (set_titleBar_inactive b e) = style e.
Proof. unfold set_titleBar_inactive. by destruct (f_titleBar (content e)). Qed.

Lemma set_titleBar_inactive_listeners b e :
  listeners (set_titleBar_inactive b e) = listeners e.
Proof. unfold set_titleBar_inactive. by destruct (f_titleBar (content e)). Qed.

Lemma set_titleBar_inactive_titleBar b e :
  f_titleBar (content (set_titleBar_inactive b e))
  = (λ _, b) <$> f_titleBar (content e).
Proof.
  unfold set_titleBar_inactive.
  by destruct (f_titleBar (content e)) eqn:E; cbn; rewrite ?E.
Qed.

Lemma set_titleBar_inactive_twice b b' e :
  set_titleBar_inactive b (set_titleBar_inactive b' e) = set_titleBar_inactive b e.
Proof.
  unfold set_titleBar_inactive, set_content.
  destruct e as [i st [[a|] cb wb sb] ls]; reflexivity.
Qed.

Lemma markInactive_lookup ws objs r :
  markInactive ws objs !! r
  = (if decide (r ∈ element <$> ws) then set_titleBar_inactive true else λ e, e)
      <$> objs !! r.
Proof.
  revert objs. induction ws as [|win ws IH]; intros objs.
  - rewrite decide_False by apply not_elem_of_nil.
    unfold markInactive. cbn [foldl]. destruct (objs !! r); reflexivity.
  - unfold markInactive in *. cbn [foldl]. rewrite IH, lookup_alter, fmap_cons.
    destruct (decide (element win = r)) as [->|Hne].
    + rewrite (decide_True (P := r ∈ r :: _)) by apply list_elem_of_here.
      destruct (objs !! r) as [e|]; [|by case_decide].
      cbn [fmap option_fmap option_map].
      case_decide; [|done]. f_equal. apply set_titleBar_inactive_twice.
    + destruct (decide (r ∈ element <$> ws)) as [Hin|Hnin].
      * rewrite decide_True; [done|]. apply elem_of_cons. by right.
      * rewrite decide_False; [done|]. apply not_elem_of_cons. by split.
Qed.

(** The world [activateWindow] leaves, field by field. *)
Lemma activated_state el w :
  w_state (activated el w)
  = mkState (windows (w_state w)) (maxZIndex (w_state w) + 1) (Some el)
      (currentMove (w_state w)).
Proof. done. Qed.

Lemma activated_bodyChildren el w :
  bodyChildren (w_dom (activated el w)) = bodyChildren (w_dom w).
Proof. done. Qed.

Lemma activated_documentListeners el w :
  documentListeners (w_dom (activated el w)) = documentListeners (w_dom w).
Proof. done. Qed.

Lemma activated_lookup el w r :
  objects (w_dom (activated el w)) !! r
  = (λ e, if decide (r = el)
          then set_titleBar_inactive false
                 (set_style (set_zIndex (maxZIndex (w_state w) + 1)) e)
          else if decide (r ∈ element <$> windows (w_state w))
               then set_titleBar_inactive true e
               else e)
      <$> objects (w_dom w) !! r.
Proof.
  unfold activated. mproj. cbn [objects set_objects].
  destruct (decide (r = el)) as [->|Hne].
  - rewrite lookup_alter_eq, markInactive_lookup, lookup_alter_eq.
    destruct (objects (w_dom w) !! el) as [e|]; [|reflexivity].
    cbn [fmap option_fmap option_map]. f_equal.
    case_decide; [|reflexivity]. apply set_titleBar_inactive_twice.
  - rewrite lookup_alter_ne, markInactive_lookup, lookup_alter_ne by done.
    repeat case_decide; try congruence; reflexivity.
Qed.

Lemma activated_zIndexOf el w :
  is_Some (objects (w_dom w) !! el) →
  zIndexOf el (activated el w) = Some (maxZIndex (w_state w) + 1).
Proof.
  intros [e He]. unfold zIndexOf. rewrite activated_lookup, He. cbn.
  rewrite decide_True by done. by rewrite set_titleBar_inactive_style.
Qed.

Lemma activated_zIndexOf_ne el w r :
  r ≠ el → zIndexOf r (activated el w) = zIndexOf r w.
Proof.
  intros Hne. unfold zIndexOf. rewrite activated_lookup.
  destruct (objects (w_dom w) !! r) as [e|]; [|done]. cbn.
  rewrite decide_False by done. case_decide; [|done].
  by rewrite set_titleBar_inactive_style.
Qed.

Lemma activated_titleBarOf el w :
  titleBarOf el (activated el w) = (λ _, false) <$> titleBarOf el w.
Proof.
  unfold titleBarOf. rewrite activated_lookup.
  destruct (objects (w_dom w) !! el) as [e|]; [|done]. cbn.
  rewrite decide_True by done. rewrite set_titleBar_inactive_titleBar. done.
Qed.

Lemma activated_titleBarOf_ne el w r :
  r ≠ el → r ∈ element <$> windows (w_state w) →
  titleBarOf r (activated el w) = (λ _, true) <$> titleBarOf r w.
Proof.
  intros Hne Hin. unfold titleBarOf. rewrite activated_lookup.
  destruct (objects (w_dom w) !! r) as [e|]; [|done]. cbn.
  rewrite decide_False by done. rewrite decide_True by done.
  by rewrite set_titleBar_inactive_titleBar.
Qed.

Lemma activated_styleOf el w r :
  styleOf r (activated el w)
  = (if decide (r = el) then set_zIndex (maxZIndex (w_state w) + 1) else λ s, s)
      <$> styleOf r w.
Proof.
  unfold styleOf. rewrite activated_lookup.
  destruct (objects (w_dom w) !! r) as [e|]; [|done]. cbn. f_equal.
  repeat case_decide; by rewrite ?set_titleBar_inactive_style.
Qed.

Lemma activated_listenersOf el w r :
  listenersOf r (activated el w) = listenersOf r w.
Proof.
  unfold listenersOf. rewrite activated_lookup.
  destruct (objects (w_dom w) !! r) as [e|]; [|done]. cbn.
  repeat case_decide; by rewrite ?set_titleBar_inactive_listeners.
Qed.

(** X1: what [activateWindow] guarantees: the element is the active window
    and has the new [maxZIndex] as its z-index, its title bar is not marked
    inactive and that of every other registered window is; no other z-index
    and no listener changes, and the registry stays. *)
Lemma activateWindow_focus el w :
  ∃ w',
    activateWindow el w = (Ret (), w')
    ∧ getActiveWindow w' = Some el
    ∧ maxZIndex (w_state w') = maxZIndex (w_state w) + 1
    ∧ windows (w_state w') = windows (w_state w)
    ∧ currentMove (w_state w') = currentMove (w_state w)
    ∧ (is_Some (objects (w_dom w) !! el) →
       zIndexOf el w' = Some (maxZIndex (w_state w')))
    ∧ titleBarOf el w' = (λ _, false) <$> titleBarOf el w
    ∧ (∀ r, r ≠ el → zIndexOf r w' = zIndexOf r w)
    ∧ (∀ r, r ≠ el → r ∈ getWindows w →
         titleBarOf r w' = (λ _, true) <$> titleBarOf r w)
    ∧ (∀ r, listenersOf r w' = listenersOf r w).
Proof.
  exists (activated el w). split; [apply activateWindow_run|].
  unfold getActiveWindow, getWindows. rewrite activated_state. mproj.
  repeat split.
  - apply activated_zIndexOf.
  - apply activated_titleBarOf.
  - intros r Hne. by apply activated_zIndexOf_ne.
  - intros r Hne Hin. by apply activated_titleBarOf_ne.
  - intros r. apply activated_listenersOf.
Qed.

(** *** [bindWindowEvents] and [createWindow] *)

Lemma alter_known (f : Element → Element) (m : gmap positive Element) r e :
  m !! r = Some e → alter f r m = <[r := f e]> m.
Proof.
  intros H. apply map_eq. intros j. rewrite lookup_alter, lookup_insert.
  case_decide; subst; by rewrite ?H.
Qed.

(** The wiring that runs to its end, and the one that throws. *)
Lemma bindWindowEvents_run r w e :
  objects (w_dom w) !! r = Some e →
  wiringCompletes (content e) = true →
  ∃ c', bindWindowEvents r w
  = (Ret (), mkWorld (w_state w)
       (set_objects (<[r := mkElement (dataset_windowId e) (style e) (content e)
                             (listeners e ++ wiring (content e))]> (objects (w_dom w)))
          (w_dom w))
       (w_console w ++ c')).
Proof.
  destruct w as [s [o b l] c]. destruct e as [i st [tb cb wb sb] ls]. mproj.
  cbn [content dataset_windowId style listeners].
  intros Hr Hc. unfold bindWindowEvents, wiringCompletes, wiring in *.
  cbn [f_titleBar f_closeButton f_windowBody f_statusBar] in *.
  mrun. rewrite Hr. cbn [from_option content f_titleBar f_closeButton f_windowBody f_statusBar].
  destruct tb as [a|].
  - destruct wb, sb, cb; try discriminate; mrun;
      rewrite (alter_known _ _ _ _ Hr), !alter_insert_eq; erun;
      rewrite <- ?(assoc_L (++)); eexists; reflexivity.
  - mrun. rewrite app_nil_r, insert_id by done. rewrite <- (assoc_L (++)).
    eexists; reflexivity.
Qed.

Lemma bindWindowEvents_throws r w e b :
  objects (w_dom w) !! r = Some e →
  f_titleBar (content e) = Some b → f_windowBody (content e) = true →
  f_statusBar (content e) = false →
  ∃ msg w', bindWindowEvents r w = (Throw (TypeError msg), w')
    ∧ w_state w' = w_state w
    ∧ bodyChildren (w_dom w') = bodyChildren (w_dom w).
Proof.
  destruct w as [s [o bc l] c]. destruct e as [i st [tb cb wb sb] ls]. mproj.
  cbn [content f_titleBar f_closeButton f_windowBody f_statusBar].
  intros Hr -> -> ->. unfold bindWindowEvents. mrun. rewrite Hr.
  cbn [from_option content f_titleBar f_closeButton f_windowBody f_statusBar].
  mrun. eauto.
Qed.

Lemma createWindow_resume_run appPath g outcome windowId w c :
  fetched c outcome → wiringCompletes c = true →
  ∃ k1 k2,
    createWindow_resume appPath g outcome windowId w
    = (Ret (Some (fresh (dom (objects (w_dom w))))),
       let w2 := activated (fresh (dom (objects (w_dom w))))
                   (built appPath g c windowId k1 w) in
       mkWorld (w_state w2) (w_dom w2) (w_console w2 ++ k2)).
Proof.
  intros (status & statusText & ->) Hc.
  destruct w as [[ws z a m] [o b l] k]. mproj.
  set (r := fresh (dom o)).
  unfold createWindow_resume. mrun. cbn [negb].
  fold r. rewrite !alter_insert_eq. erun.
  pose proof (bindWindowEvents_run r) as Hbind. mrun_in Hbind.
  edestruct Hbind as [k' ->]; [apply lookup_insert_eq|exact Hc|].
  mrun. rewrite activateWindow_run. rewrite insert_insert_eq.
  unfold built, createdStyle. mrun. fold r.
  rewrite <- !(assoc_L (++)). do 2 eexists. reflexivity.
Qed.

(** What a successful creation leaves: the new element under a fresh
    reference, registered last, attached last, focused, styled from the
    geometry arguments and wired. *)
Lemma createWindow_resume_spec appPath g outcome windowId c w :
  fetched c outcome → wiringCompletes c = true →
  let r := fresh (dom (objects (w_dom w))) in
  ∃ w',
    createWindow_resume appPath g outcome windowId w = (Ret (Some r), w')
    ∧ w_state w'
      = mkState (windows (w_state w) ++ [mkWindowData windowId r appPath])
          (maxZIndex (w_state w) + 2) (Some r) (currentMove (w_state w))
    ∧ objects (w_dom w') !! r
      = Some (mkElement (Some windowId)
                (createdStyle g (maxZIndex (w_state w) + 2))
                (focusedMarkup c) (wiring c))
    ∧ bodyChildren (w_dom w')
      = (filter (λ x, x ≠ r) (bodyChildren (w_dom w)) ++ [r])%list
    ∧ documentListeners (w_dom w') = documentListeners (w_dom w).
Proof.
  intros Hf Hc r.
  destruct (createWindow_resume_run appPath g outcome windowId w c Hf Hc)
    as (k1 & k2 & ->).
  fold r. eexists. split; [reflexivity|]. cbn zeta. mproj.
  rewrite activated_state, activated_lookup, activated_bodyChildren,
    activated_documentListeners.
  unfold built. mproj. fold r. rewrite lookup_insert_eq.
  cbn [fmap option_fmap option_map]. rewrite (decide_True (P := r = r)) by done.
  replace (maxZIndex (w_state w) + 1 + 1) with (maxZIndex (w_state w) + 2) by lia.
  repeat split. f_equal.
  unfold set_titleBar_inactive, set_style, set_content, focusedMarkup,
    createdStyle, set_zIndex.
  destruct c as [[a|] cb wb sb]; reflexivity.
Qed.

(** The geometry arguments reach the style as follows: a number with the
    unit [px], anything else as it is. *)
Lemma cssLength_number n : cssLength (GNum n) = px n.
Proof. reflexivity. Qed.

Lemma cssLength_string s : cssLength (GStr s) = s.
Proof. reflexivity. Qed.

(** When [createWindow] fetches, it goes on from the world it was called
    in, with one more line logged. *)
Lemma createWindow_fetches appPath g checkDuplicate outcome windowId w :
  fetches appPath checkDuplicate w →
  createWindow appPath g checkDuplicate outcome windowId w
  = createWindow_resume appPath g outcome windowId
      (mkWorld (w_state w) (w_dom w)
         (w_console w ++ [ConsoleLog ("窗口管理器：" +:+ "创建：" +:+ appPath)])).
Proof.
  destruct w as [[ws z a m] [o b l] k].
  unfold fetches, createWindow, createWindow_start. mproj. intros H. mrun.
  destruct (default false checkDuplicate); [|done].
  destruct H as [H|H]; [done|]. by rewrite H.
Qed.

(** ** C1: the z-index of a new window *)

(** C1, as the code has it: on the empty page, where [maxZIndex] is 100,
    [createWindow('/apps/notes.html', 400, 300)] succeeds and returns an
    element whose z-index is 102, not 101: the window gets 101 when it is
    built and 102 from the [activateWindow] call that ends the creation. *)
Lemma createWindow_zIndex_counterexample :
  maxZIndex (w_state emptyWorld) = 100
  ∧ (createWindow "/apps/notes.html" size400x300 None (okResponse fullMarkup)
       "win_1_aaaa" emptyWorld).1 = Ret (Some 1%positive)
  ∧ zIndexOf 1 oneWindow = Some 102
  ∧ zIndexOf 1 oneWindow ≠ Some (100 + 1)
  ∧ maxZIndex (w_state oneWindow) = 102.
Proof. vm_compute. repeat split; congruence. Qed.

(** C1 (amended): when the fetch delivers markup on which the wiring runs
    to its end, [createWindow] returns the element it has made, a new one,
    whose z-index is then the prior [maxZIndex] plus two, which is also the
    value of [maxZIndex] afterwards.  This holds for the part of
    [createWindow] that runs once the fetch is over, from whatever world it
    resumes in, and for a whole call that fetches. *)
Theorem createWindow_new_window_zIndex appPath g outcome windowId c :
  fetched c outcome → wiringCompletes c = true →
  (∀ w, ∃ r w',
     createWindow_resume appPath g outcome windowId w = (Ret (Some r), w')
     ∧ objects (w_dom w) !! r = None
     ∧ zIndexOf r w' = Some (maxZIndex (w_state w) + 2)
     ∧ maxZIndex (w_state w') = maxZIndex (w_state w) + 2)
  ∧ (∀ w checkDuplicate, fetches appPath checkDuplicate w → ∃ r w',
       createWindow appPath g checkDuplicate outcome windowId w = (Ret (Some r), w')
       ∧ objects (w_dom w) !! r = None
       ∧ zIndexOf r w' = Some (maxZIndex (w_state w) + 2)
       ∧ maxZIndex (w_state w') = maxZIndex (w_state w) + 2).
Proof.
  intros Hf Hc.
  assert (∀ w, ∃ r w',
     createWindow_resume appPath g outcome windowId w = (Ret (Some r), w')
     ∧ objects (w_dom w) !! r = None
     ∧ zIndexOf r w' = Some (maxZIndex (w_state w) + 2)
     ∧ maxZIndex (w_state w') = maxZIndex (w_state w) + 2) as Hresume.
  { intros w.
    destruct (createWindow_resume_spec appPath g outcome windowId c w Hf Hc)
      as (w' & Hrun & Hst & Hobj & _).
    do 2 eexists. split; [exact Hrun|]. split; [|split].
    - apply not_elem_of_dom, is_fresh.
    - unfold zIndexOf. by rewrite Hobj.
    - by rewrite Hst. }
  split; [exact Hresume|]. intros w checkDuplicate Hfetch.
  rewrite createWindow_fetches by done.
  destruct (Hresume (mkWorld (w_state w) (w_dom w)
    (w_console w ++ [ConsoleLog ("窗口管理器：" +:+ "创建：" +:+ appPath)])))
    as (r & w' & -> & Hnew & Hz & Hm).
  eauto 6.
Qed.

Lemma createWindow_new_window_zIndex_witness :
  fetched fullMarkup (okResponse fullMarkup)
  ∧ wiringCompletes fullMarkup = true
  ∧ (∀ w, ∃ r w',
       createWindow_resume "/apps/notes.html" size400x300 (okResponse fullMarkup)
         "win_1_aaaa" w = (Ret (Some r), w')
       ∧ objects (w_dom w) !! r = None
       ∧ zIndexOf r w' = Some (maxZIndex (w_state w) + 2)
       ∧ maxZIndex (w_state w') = maxZIndex (w_state w) + 2)
  ∧ (∀ w checkDuplicate, fetches "/apps/notes.html" checkDuplicate w → ∃ r w',
       createWindow "/apps/notes.html" size400x300 checkDuplicate
         (okResponse fullMarkup) "win_1_aaaa" w = (Ret (Some r), w')
       ∧ objects (w_dom w) !! r = None
       ∧ zIndexOf r w' = Some (maxZIndex (w_state w) + 2)
       ∧ maxZIndex (w_state w') = maxZIndex (w_state w) + 2).
Proof.
  assert (fetched fullMarkup (okResponse fullMarkup)) as Hf
    by (exists 200, "OK"; reflexivity).
  split; [exact Hf|]. split; [reflexivity|].
  exact (createWindow_new_window_zIndex "/apps/notes.html" size400x300
           (okResponse fullMarkup) "win_1_aaaa" fullMarkup Hf eq_refl).
Defined.

(** ** C3: markup without a status bar *)

(** C3, as the code has it: on markup that has a title bar and a window
    body and no status bar, [bindWindowEvents] calls [addEventListener] on
    the [null] that the search for the status bar returned (the test before
    the call is on [windowBody]); the [TypeError] is caught by [createWindow],
    which returns [null], although the window is registered and attached by
    then; it is not focused. *)
Theorem createWindow_missing_statusBar appPath g outcome windowId c b w :
  fetched c outcome →
  f_titleBar c = Some b → f_windowBody c = true → f_statusBar c = false →
  let r := fresh (dom (objects (w_dom w))) in
  ∃ w',
    createWindow_resume appPath g outcome windowId w = (Ret None, w')
    ∧ windows (w_state w')
      = windows (w_state w) ++ [mkWindowData windowId r appPath]
    ∧ r ∈ bodyChildren (w_dom w')
    ∧ activeWindow (w_state w') = activeWindow (w_state w).
Proof.
  intros (status & statusText & ->) Ht Hb Hs.
  destruct w as [[ws z a m] [o bc l] k]. cbv zeta. mproj.
  set (r := fresh (dom o)).
  unfold createWindow_resume. mrun. cbn [negb]. fold r.
  rewrite !alter_insert_eq. erun.
  match goal with
  | |- context [bindWindowEvents r ?W] =>
      edestruct (bindWindowEvents_throws r W) as (msg & w1 & Hrun & Hst & Hbc);
        [apply lookup_insert_eq|exact Ht|exact Hb|exact Hs|]
  end.
  rewrite Hrun. destruct w1 as [s1 [o1 b1 l1] k1]. mproj_in Hst. mproj_in Hbc.
  subst s1 b1. mrun. eexists. split; [reflexivity|].
  repeat split. set_solver.
Qed.

Lemma createWindow_missing_statusBar_witness :
  fetched noStatusBarMarkup (okResponse noStatusBarMarkup)
  ∧ f_titleBar noStatusBarMarkup = Some false
  ∧ f_windowBody noStatusBarMarkup = true
  ∧ f_statusBar noStatusBarMarkup = false
  ∧ ∃ w',
      createWindow_resume "/apps/notes.html" size400x300
        (okResponse noStatusBarMarkup) "win_1_aaaa" emptyWorld = (Ret None, w')
      ∧ windows (w_state w')
        = windows (w_state emptyWorld)
          ++ [mkWindowData "win_1_aaaa" (fresh (dom (objects (w_dom emptyWorld))))
                "/apps/notes.html"]
      ∧ fresh (dom (objects (w_dom emptyWorld))) ∈ bodyChildren (w_dom w')
      ∧ activeWindow (w_state w') = activeWindow (w_state emptyWorld).
Proof.
  assert (fetched noStatusBarMarkup (okResponse noStatusBarMarkup)) as Hf
    by (exists 200, "OK"; reflexivity).
  repeat split; try done.
  exact (createWindow_missing_statusBar "/apps/notes.html" size400x300
           (okResponse noStatusBarMarkup) "win_1_aaaa" noStatusBarMarkup false
           emptyWorld Hf eq_refl eq_refl eq_refl).
Defined.

(** ** C4: a fetch that fails *)

(** C4: when the fetch is rejected, or its response is not [ok], or the
    body cannot be read, [createWindow] returns [null] and throws nothing;
    the state object and the DOM are as they were, so that no window is
    registered and no element attached; only the console has grown.  This
    holds from whatever world the function resumes in after the fetch, and for
    a whole call that fetches. *)
Theorem createWindow_fetch_failure appPath g outcome windowId :
  fetchFailed outcome →
  (∀ w, ∃ w',
     createWindow_resume appPath g outcome windowId w = (Ret None, w')
     ∧ w_state w' = w_state w ∧ w_dom w' = w_dom w)
  ∧ (∀ w checkDuplicate, fetches appPath checkDuplicate w → ∃ w',
       createWindow appPath g checkDuplicate outcome windowId w = (Ret None, w')
       ∧ w_state w' = w_state w ∧ w_dom w' = w_dom w).
Proof.
  intros Hfail.
  assert (∀ w, ∃ w',
     createWindow_resume appPath g outcome windowId w = (Ret None, w')
     ∧ w_state w' = w_state w ∧ w_dom w' = w_dom w) as Hresume.
  { intros w. unfold createWindow_resume.
    destruct outcome as [e|ok status statusText text]; cbn in Hfail.
    - mrun. eauto.
    - destruct Hfail as [->|[e ->]].
      + mrun. eauto.
      + destruct ok; mrun; eauto. }
  split; [exact Hresume|]. intros w checkDuplicate Hfetch.
  rewrite createWindow_fetches by done.
  destruct (Hresume (mkWorld (w_state w) (w_dom w)
    (w_console w ++ [ConsoleLog ("窗口管理器：" +:+ "创建：" +:+ appPath)])))
    as (w' & -> & Hs & Hd).
  eauto.
Qed.

Lemma createWindow_fetch_failure_witness :
  fetchFailed (FetchResponse false 404 "Not Found" (inr fullMarkup))
  ∧ ∃ w',
      createWindow_resume "/apps/notes.html" size400x300
        (FetchResponse false 404 "Not Found" (inr fullMarkup)) "win_2_bbbb"
        oneWindow = (Ret None, w')
      ∧ w_state w' = w_state oneWindow ∧ w_dom w' = w_dom oneWindow.
Proof.
  assert (fetchFailed (FetchResponse false 404 "Not Found" (inr fullMarkup))) as Hf
    by (left; reflexivity).
  split; [exact Hf|].
  exact (proj1 (createWindow_fetch_failure "/apps/notes.html" size400x300
                  (FetchResponse false 404 "Not Found" (inr fullMarkup))
                  "win_2_bbbb" Hf) oneWindow).
Defined.

(** ** C5: the duplicate check *)

(** The run of [createWindow] that finds a duplicate. *)
Lemma duplicate_found_run appPath g outcome windowId w index win :
  list_find (hasAppPath appPath) (windows (w_state w)) = Some (index, win) →
  createWindow appPath g (Some true) outcome windowId w
  = (Ret (Some (element win)),
     activated (element win)
       (mkWorld (w_state w) (w_dom w)
          (w_console w
           ++ [ConsoleLog ("窗口管理器：" +:+ "创建：" +:+ appPath);
               ConsoleLog ("窗口管理器：" +:+ "创建：检测到重复窗口：" +:+ id win)]))).
Proof.
  destruct w as [[ws z a m] [o b l] k]. mproj. intros Hfind.
  unfold createWindow, createWindow_start. cbn [default from_option Datatypes.id].
  mrun. rewrite Hfind. mrun. rewrite activateWindow_run.
  by rewrite <- (assoc_L (++)).
Qed.

(** C5: with [checkDuplicate] true and a registered window of the same
    [appPath], [createWindow] returns the element of the first such window
    without fetching: the registry and the children of the body are as they
    were and no element object is made; the window is the active one, it has
    the new [maxZIndex] as its z-index and its title bar is not marked
    inactive. *)
Theorem createWindow_duplicate appPath g outcome windowId w :
  (∃ win, win ∈ windows (w_state w) ∧ hasAppPath appPath win) →
  ∃ index win w',
    list_find (hasAppPath appPath) (windows (w_state w)) = Some (index, win)
    ∧ createWindow appPath g (Some true) outcome windowId w
      = (Ret (Some (element win)), w')
    ∧ windows (w_state w') = windows (w_state w)
    ∧ bodyChildren (w_dom w') = bodyChildren (w_dom w)
    ∧ dom (objects (w_dom w')) = dom (objects (w_dom w))
    ∧ getActiveWindow w' = Some (element win)
    ∧ maxZIndex (w_state w') = maxZIndex (w_state w) + 1
    ∧ (is_Some (objects (w_dom w) !! element win) →
       zIndexOf (element win) w' = Some (maxZIndex (w_state w')))
    ∧ titleBarOf (element win) w' = (λ _, false) <$> titleBarOf (element win) w.
Proof.
  intros (win0 & Hin & Hp).
  destruct (list_find_elem_of (hasAppPath appPath) _ _ Hin Hp) as [[index win] Hfind].
  exists index, win. eexists. split; [exact Hfind|].
  split; [exact (duplicate_found_run _ _ _ _ _ _ _ Hfind)|].
  unfold getActiveWindow. rewrite activated_state, activated_bodyChildren.
  rewrite activated_titleBarOf. mproj. repeat split.
  - apply set_eq. intros r. rewrite !elem_of_dom, activated_lookup. mproj.
    by rewrite fmap_is_Some.
  - intros Hsome. by rewrite activated_zIndexOf.
Qed.

Lemma createWindow_duplicate_witness :
  (∃ win, win ∈ windows (w_state twoWindows) ∧ hasAppPath "/apps/notes.html" win)
  ∧ ∃ index win w',
      list_find (hasAppPath "/apps/notes.html") (windows (w_state twoWindows))
      = Some (index, win)
      ∧ createWindow "/apps/notes.html" size400x300 (Some true)
          (okResponse fullMarkup) "win_3_cccc" twoWindows
        = (Ret (Some (element win)), w')
      ∧ windows (w_state w') = windows (w_state twoWindows)
      ∧ bodyChildren (w_dom w') = bodyChildren (w_dom twoWindows)
      ∧ dom (objects (w_dom w')) = dom (objects (w_dom twoWindows))
      ∧ getActiveWindow w' = Some (element win)
      ∧ maxZIndex (w_state w') = maxZIndex (w_state twoWindows) + 1
      ∧ (is_Some (objects (w_dom twoWindows) !! element win) →
         zIndexOf (element win) w' = Some (maxZIndex (w_state w')))
      ∧ titleBarOf (element win) w'
        = (λ _, false) <$> titleBarOf (element win) twoWindows.
Proof.
  assert (∃ win, win ∈ windows (w_state twoWindows)
                 ∧ hasAppPath "/apps/notes.html" win) as H.
  { exists (mkWindowData "win_1_aaaa" 1 "/apps/notes.html").
    split; [|reflexivity]. vm_compute. apply list_elem_of_here. }
  split; [exact H|].
  exact (createWindow_duplicate "/apps/notes.html" size400x300
           (okResponse fullMarkup) "win_3_cccc" twoWindows H).
Defined.

(** ** C6: markup without a title bar *)

Lemma deliver_unwired r n event rect w :
  listenersOf r w = [] → deliver r n event rect w = (Ret (), w).
Proof.
  destruct w as [s [o b l] k]. unfold listenersOf, deliver. mproj.
  intros H. mrun. rewrite H. reflexivity.
Qed.

(** C6, as the code has it: a window opened from markup that has a close
    control and no title bar stays open when its close control is clicked or
    touched. *)
Lemma close_control_counterexample :
  f_titleBar noTitleBarMarkup = None
  ∧ f_closeButton noTitleBarMarkup = true
  ∧ (createWindow "/apps/clock.html" size400x300 None (okResponse noTitleBarMarkup)
       "win_1_aaaa" emptyWorld).1 = Ret (Some 1%positive)
  ∧ deliver 1 NCloseButton (MouseEvent click 10 10 true) (mkRect (Some 0) (Some 0))
      untitledWindow = (Ret (), untitledWindow)
  ∧ deliver 1 NCloseButton (TouchEvent touchend [] true) (mkRect (Some 0) (Some 0))
      untitledWindow = (Ret (), untitledWindow)
  ∧ getWindows untitledWindow = [1%positive]
  ∧ bodyChildren (w_dom untitledWindow) = [1%positive].
Proof. vm_compute. repeat split. Qed.

(** C6 (amended): on markup without a title bar [bindWindowEvents] logs and
    returns before it binds anything.  The window is created all the same
    (returned, registered, attached and focused), and no listener is bound on
    it, that of the close control included: whatever event reaches whatever
    node of it, nothing changes. *)
Theorem createWindow_without_titleBar appPath g outcome windowId c w :
  fetched c outcome → f_titleBar c = None →
  ∃ r w',
    createWindow_resume appPath g outcome windowId w = (Ret (Some r), w')
    ∧ r ∈ getWindows w'
    ∧ r ∈ bodyChildren (w_dom w')
    ∧ getActiveWindow w' = Some r
    ∧ listenersOf r w' = []
    ∧ ∀ n event rect, deliver r n event rect w' = (Ret (), w').
Proof.
  intros Hf Ht.
  assert (wiringCompletes c = true) as Hc by (unfold wiringCompletes; by rewrite Ht).
  destruct (createWindow_resume_spec appPath g outcome windowId c w Hf Hc)
    as (w' & Hrun & Hst & Hobj & Hbody & _).
  assert (listenersOf (fresh (dom (objects (w_dom w)))) w' = []) as Hl.
  { unfold listenersOf. rewrite Hobj. cbn. unfold wiring. by rewrite Ht. }
  do 2 eexists. split; [exact Hrun|].
  unfold getWindows, getActiveWindow. rewrite Hst, Hbody. mproj.
  repeat split.
  - rewrite fmap_app. set_solver.
  - set_solver.
  - exact Hl.
  - intros. by apply deliver_unwired.
Qed.

Lemma createWindow_without_titleBar_witness :
  fetched noTitleBarMarkup (okResponse noTitleBarMarkup)
  ∧ f_titleBar noTitleBarMarkup = None
  ∧ ∃ r w',
      createWindow_resume "/apps/clock.html" size400x300
        (okResponse noTitleBarMarkup) "win_1_aaaa" emptyWorld = (Ret (Some r), w')
      ∧ r ∈ getWindows w'
      ∧ r ∈ bodyChildren (w_dom w')
      ∧ getActiveWindow w' = Some r
      ∧ listenersOf r w' = []
      ∧ ∀ n event rect, deliver r n event rect w' = (Ret (), w').
Proof.
  assert (fetched noTitleBarMarkup (okResponse noTitleBarMarkup)) as Hf
    by (exists 200, "OK"; reflexivity).
  split; [exact Hf|]. split; [reflexivity|].
  exact (createWindow_without_titleBar "/apps/clock.html" size400x300
           (okResponse noTitleBarMarkup) "win_1_aaaa" noTitleBarMarkup emptyWorld
           Hf eq_refl).
Defined.

(** ** C7: the default size *)

(** C7, as the code has it: with the geometry arguments left out, the
    defaults of the parameter list are the strings ['400'] and ['300'], which
    are not numbers and so reach the style without a unit: the new element's
    width is ["400"] and its maximal height ["300"], where a width of 400
    given as a number yields ["400px"]. *)
Theorem createWindow_default_size appPath outcome windowId c w :
  fetched c outcome → wiringCompletes c = true →
  ∃ r w',
    createWindow_resume appPath noGeometry outcome windowId w = (Ret (Some r), w')
    ∧ width <$> styleOf r w' = Some "400"
    ∧ maxHeight <$> styleOf r w' = Some "300"
    ∧ cssLength (GNum (Some 400)) = "400px"
    ∧ cssLength (GNum (Some 300)) = "300px".
Proof.
  intros Hf Hc.
  destruct (createWindow_resume_spec appPath noGeometry outcome windowId c w Hf Hc)
    as (w' & Hrun & _ & Hobj & _).
  do 2 eexists. split; [exact Hrun|].
  unfold styleOf. rewrite Hobj. repeat split.
Qed.

Lemma createWindow_default_size_witness :
  fetched fullMarkup (okResponse fullMarkup)
  ∧ wiringCompletes fullMarkup = true
  ∧ ∃ r w',
      createWindow_resume "/apps/notes.html" noGeometry (okResponse fullMarkup)
        "win_1_aaaa" emptyWorld = (Ret (Some r), w')
      ∧ width <$> styleOf r w' = Some "400"
      ∧ maxHeight <$> styleOf r w' = Some "300"
      ∧ cssLength (GNum (Some 400)) = "400px"
      ∧ cssLength (GNum (Some 300)) = "300px".
Proof.
  assert (fetched fullMarkup (okResponse fullMarkup)) as Hf
    by (exists 200, "OK"; reflexivity).
  split; [exact Hf|]. split; [reflexivity|].
  exact (createWindow_default_size "/apps/notes.html" (okResponse fullMarkup)
           "win_1_aaaa" fullMarkup emptyWorld Hf eq_refl).
Defined.

(** The part of C7 that holds: whatever geometry is given, a successful
    creation leaves the style [createdStyle] computes, numbers with [px] and
    strings as they are. *)
Lemma createWindow_geometry appPath g outcome windowId c w :
  fetched c outcome → wiringCompletes c = true →
  ∃ r w',
    createWindow_resume appPath g outcome windowId w = (Ret (Some r), w')
    ∧ styleOf r w' = Some (createdStyle g (maxZIndex (w_state w) + 2)).
Proof.
  intros Hf Hc.
  destruct (createWindow_resume_spec appPath g outcome windowId c w Hf Hc)
    as (w' & Hrun & _ & Hobj & _).
  do 2 eexists. split; [exact Hrun|]. unfold styleOf. by rewrite Hobj.
Qed.

(** ** C2: a press during a drag *)

(** C2, as the code has it: while the first window is dragged, a press on
    the title bar of the second one makes [startMove] store a record for the
    second window in [currentMove]. *)
Lemma startMove_counterexample :
  windowElement <$> currentMove (w_state draggingFirst) = Some 1%positive
  ∧ (startMove 2 pressSecond rectSecond draggingFirst).1 = Ret ()
  ∧ currentMove (w_state (startMove 2 pressSecond rectSecond draggingFirst).2)
    = Some (mkMoveInfo 2 (Some 300) (Some 200) (Some 250) (Some 150) false)
  ∧ currentMove (w_state (startMove 2 pressSecond rectSecond draggingFirst).2)
    ≠ currentMove (w_state draggingFirst).
Proof. vm_compute. repeat split. congruence. Qed.

(** C2 (amended): [startMove] does not look at [currentMove].  Whether a
    drag is active or not, a call that can read the position of the pointer
    (any event but a [touchstart] without touches) focuses the window and
    stores in [currentMove] a new record for it, made of that position, the
    window's rectangle and the kind of input. *)
Theorem startMove_replaces_currentMove el event rect w p :
  pressPoint event = Some p →
  ∃ w',
    startMove el event rect w = (Ret (), w')
    ∧ currentMove (w_state w')
      = Some (mkMoveInfo el p.1 p.2 (rect_left rect) (rect_top rect)
                (bool_decide (type event = touchstart)))
    ∧ getActiveWindow w' = Some el.
Proof.
  unfold pressPoint, startMove. intros Hp. mrun. rewrite activateWindow_run.
  mrun. unfold firstTouch. unfold getActiveWindow.
  destruct (decide (type event = touchstart)) as [Ht|Ht].
  - rewrite (bool_decide_eq_true_2 _ Ht).
    destruct (touches event) as [[|[x y] ts]|]; try discriminate.
    injection Hp as <-. mrun. cbn [isTouch forEach]. mrun.
    eexists. split; [reflexivity|]. by mproj.
  - rewrite (bool_decide_eq_false_2 _ Ht). injection Hp as <-.
    mrun. cbn [isTouch forEach]. mrun.
    eexists. split; [reflexivity|]. by mproj.
Qed.

Lemma startMove_replaces_currentMove_witness :
  pressPoint pressSecond = Some (Some 300, Some 200)
  ∧ ∃ w',
      startMove 2 pressSecond rectSecond draggingFirst = (Ret (), w')
      ∧ currentMove (w_state w')
        = Some (mkMoveInfo 2 (Some 300) (Some 200) (rect_left rectSecond)
                  (rect_top rectSecond)
                  (bool_decide (type pressSecond = touchstart)))
      ∧ getActiveWindow w' = Some 2%positive.
Proof.
  split; [reflexivity|].
  exact (startMove_replaces_currentMove 2 pressSecond rectSecond draggingFirst
           (Some 300, Some 200) eq_refl).
Defined.

(** ** C8: a drag session *)

Lemma handleMove_idle event w :
  currentMove (w_state w) = None → handleMove event w = (Ret (), w).
Proof.
  destruct w as [[ws z a m] d k]. mproj. intros ->. unfold handleMove.
  by mrun.
Qed.

Lemma endMove_idle w :
  currentMove (w_state w) = None → endMove w = (Ret (), w).
Proof.
  destruct w as [[ws z a m] d k]. mproj. intros ->. unfold endMove.
  by mrun.
Qed.

(** With no drag active, an event that reaches [document] changes nothing,
    whatever listeners are left there. *)
Lemma deliverDocument_idle event w :
  currentMove (w_state w) = None → deliverDocument event w = (Ret (), w).
Proof.
  intros H. unfold deliverDocument.
  assert (∀ ls : list (EventType * DocHandler), forEach ls (λ l, reported (match l.2 with
                                           | DHandleMove => handleMove event
                                           | DEndMove => endMove
                                           end)) w = (Ret (), w)) as Hall.
  { induction ls as [|l ls IH]; [done|].
    cbn [forEach]. unfold reported. mrun.
    destruct (l.2); rewrite ?handleMove_idle, ?endMove_idle by done; exact IH. }
  destruct w as [s [o b dl] k]. mrun. apply Hall.
Qed.

(** What [endMove] leaves when a drag is active. *)
Lemma endMove_run w m :
  currentMove (w_state w) = Some m →
  ∃ w',
    endMove w = (Ret (), w')
    ∧ w_state w' = set_currentMove None (w_state w)
    ∧ objects (w_dom w') = objects (w_dom w)
    ∧ bodyChildren (w_dom w') = bodyChildren (w_dom w)
    ∧ (∀ l, l ∈ documentListeners (w_dom w') →
         l ∈ documentListeners (w_dom w)
         ∧ l ≠ ((if isTouch m then touchmove else mousemove), DHandleMove)
         ∧ l ≠ (if isTouch m then touchend else mouseup, DEndMove)).
Proof.
  destruct w as [[ws z a cm] [o b dl] k]. mproj. intros ->.
  unfold endMove, moveListener, endListener. mrun.
  destruct (isTouch m); cbn [forEach]; mrun;
    (eexists; split; [reflexivity|]); mproj; (split; [reflexivity|]);
    (split; [reflexivity|]); (split; [reflexivity|]);
    intros l' Hl; rewrite !list_elem_of_filter in Hl;
    destruct Hl as (Hend & Hmove & Hin); cbv in Hend, Hmove; done.
Qed.

(** C8: during a drag started at pointer position [(sx, sy)] with the
    window at [(wx, wy)], a [handleMove] whose event has the pointer at
    [(cx, cy)] sets the [left] and [top] of the dragged window to
    [wx + (cx - sx)] and [wy + (cy - sy)] pixels and leaves the state object
    alone; the [endMove] that follows clears [currentMove] without touching
    any element, and from then on neither a call of [handleMove] nor an event
    that reaches [document] changes anything. *)
Theorem drag_session w m e event sx sy wx wy cx cy :
  currentMove (w_state w) = Some m →
  objects (w_dom w) !! windowElement m = Some e →
  startX m = Some sx → startY m = Some sy →
  windowStartX m = Some wx → windowStartY m = Some wy →
  pointerAt m event = Some (Some cx, Some cy) →
  ∃ w' w'',
    handleMove event w = (Ret (), w')
    ∧ w_state w' = w_state w
    ∧ left <$> styleOf (windowElement m) w' = Some (pretty (wx + (cx - sx)) +:+ "px")
    ∧ top <$> styleOf (windowElement m) w' = Some (pretty (wy + (cy - sy)) +:+ "px")
    ∧ endMove w' = (Ret (), w'')
    ∧ currentMove (w_state w'') = None
    ∧ objects (w_dom w'') = objects (w_dom w')
    ∧ (moveListener m ∉ documentListeners (w_dom w''))
    ∧ (endListener m ∉ documentListeners (w_dom w''))
    ∧ ∀ event',
        handleMove event' w'' = (Ret (), w'')
        ∧ deliverDocument event' w'' = (Ret (), w'').
Proof.
  intros Hm He Hsx Hsy Hwx Hwy Hp.
  assert (∃ w', handleMove event w = (Ret (), w')
            ∧ w_state w' = w_state w
            ∧ objects (w_dom w')
              = alter (set_style (set_top (px (Some (wy + (cy - sy))))))
                  (windowElement m)
                  (alter (set_style (set_left (px (Some (wx + (cx - sx))))))
                     (windowElement m) (objects (w_dom w)))) as (w' & Hrun & Hst & Hobj).
  { destruct w as [[ws z a cm] [o b dl] k]. mproj_in Hm. mproj_in He. subst cm.
    unfold handleMove, pointerAt in *. mrun.
    rewrite Hsx, Hsy, Hwx, Hwy.
    destruct (isTouch m).
    - destruct (touches event) as [[|[x y] ts]|]; try discriminate.
      injection Hp as -> ->. eexists. split; [reflexivity|]. done.
    - injection Hp as -> ->. eexists. split; [reflexivity|]. done. }
  assert (currentMove (w_state w') = Some m) as Hm' by (by rewrite Hst).
  destruct (endMove_run w' m Hm') as (w'' & Hend & Hst'' & Hobj'' & _ & Hgone).
  assert (currentMove (w_state w'') = None) as Hidle by (by rewrite Hst'').
  exists w', w''. repeat split; try done.
  all: try (intros Hin; apply Hgone in Hin; by destruct Hin as (_ & ? & ?)).
  - unfold styleOf. rewrite Hobj, !lookup_alter_eq, He. done.
  - unfold styleOf. rewrite Hobj, !lookup_alter_eq, He. done.
  - by apply handleMove_idle.
  - by apply deliverDocument_idle.
Qed.

Lemma drag_session_witness :
  ∃ m e,
    currentMove (w_state draggingFirst) = Some m
    ∧ objects (w_dom draggingFirst) !! windowElement m = Some e
    ∧ startX m = Some 120 ∧ startY m = Some 80
    ∧ windowStartX m = Some 100 ∧ windowStartY m = Some 50
    ∧ pointerAt m moveFirst = Some (Some 150, Some 95)
    ∧ ∃ w' w'',
        handleMove moveFirst draggingFirst = (Ret (), w')
        ∧ w_state w' = w_state draggingFirst
        ∧ left <$> styleOf (windowElement m) w'
          = Some (pretty (100 + (150 - 120)) +:+ "px")
        ∧ top <$> styleOf (windowElement m) w'
          = Some (pretty (50 + (95 - 80)) +:+ "px")
        ∧ endMove w' = (Ret (), w'')
        ∧ currentMove (w_state w'') = None
        ∧ objects (w_dom w'') = objects (w_dom w')
        ∧ (moveListener m ∉ documentListeners (w_dom w''))
        ∧ (endListener m ∉ documentListeners (w_dom w''))
        ∧ ∀ event',
            handleMove event' w'' = (Ret (), w'')
            ∧ deliverDocument event' w'' = (Ret (), w'').
Proof.
  assert (currentMove (w_state draggingFirst)
          = Some (mkMoveInfo 1 (Some 120) (Some 80) (Some 100) (Some 50) false))
    as Hm by (vm_compute; reflexivity).
  assert (is_Some (objects (w_dom draggingFirst) !! 1%positive)) as [e He]
    by (vm_compute; eauto).
  exists (mkMoveInfo 1 (Some 120) (Some 80) (Some 100) (Some 50) false), e.
  split; [exact Hm|]. split; [exact He|]. do 5 (split; [reflexivity|]).
  exact (drag_session draggingFirst _ e moveFirst 120 80 100 50 150 95
           Hm He eq_refl eq_refl eq_refl eq_refl eq_refl).
Defined.

(** ** C9 and C10: closing a window *)

(** Splicing a window out removes an entry of that window only. *)
Lemma withoutWindow_other el ws win :
  element win ≠ el → win ∈ withoutWindow el ws ↔ win ∈ ws.
Proof.
  intros Hne. unfold withoutWindow.
  destruct (list_find _ ws) as [[index found]|] eqn:Hfind; [|done].
  apply list_find_Some in Hfind as (Hlook & Hel & _).
  rewrite <- (take_drop_middle ws index found Hlook) at 2.
  rewrite delete_take_drop, !elem_of_app, elem_of_cons.
  split; [tauto|]. intros [?|[->|?]]; tauto.
Qed.

Lemma withoutWindow_only el win :
  element win = el → withoutWindow el [win] = [].
Proof.
  intros H. unfold withoutWindow. cbn. unfold decide_rel.
  by rewrite decide_True.
Qed.

(** The world [closeWindow el] leaves when [el] is not the active window,
    and the world in which it tests [activeWindow] in any case: the element
    is detached and its entry spliced out. *)
Lemma close_inactive_run el w :
  activeWindow (w_state w) ≠ Some el →
  closeWindow el w
  = (Ret (),
     mkWorld (set_windows (withoutWindow el (windows (w_state w))) (w_state w))
       (set_bodyChildren (filter (λ c, c ≠ el) (bodyChildren (w_dom w))) (w_dom w))
       (w_console w
        ++ [ConsoleLog ("窗口管理器：" +:+ "关闭：" +:+ nameOf el w);
            ConsoleLog ("窗口管理器：" +:+ "关闭：" +:+ nameOf el w +:+ "：完成")])).
Proof.
  destruct w as [[ws z a m] [o b l] k]. mproj. intros Hne.
  unfold closeWindow, withoutWindow, nameOf. mrun.
  destruct (list_find _ _) as [[index found]|]; mrun;
    rewrite decide_False by done; by rewrite <- (assoc_L (++)).
Qed.

Lemma close_active_run el w :
  activeWindow (w_state w) = Some el →
  let w1 :=
    mkWorld (mkState (withoutWindow el (windows (w_state w)))
               (maxZIndex (w_state w)) None (currentMove (w_state w)))
      (set_bodyChildren (filter (λ c, c ≠ el) (bodyChildren (w_dom w))) (w_dom w))
      (w_console w ++ [ConsoleLog ("窗口管理器：" +:+ "关闭：" +:+ nameOf el w)]) in
  let w2 :=
    match last (withoutWindow el (windows (w_state w))) with
    | Some win => activated (element win) w1
    | None => w1
    end in
  closeWindow el w
  = (Ret (),
     mkWorld (w_state w2) (w_dom w2)
       (w_console w2
        ++ [ConsoleLog ("窗口管理器：" +:+ "关闭：" +:+ nameOf el w +:+ "：完成")])).
Proof.
  destruct w as [[ws z a m] [o b l] k]. mproj. intros ->.
  unfold closeWindow, withoutWindow, nameOf. mrun.
  destruct (list_find _ _) as [[index found]|]; mrun;
    rewrite decide_True by done; mrun.
  - destruct (last (delete index ws)) as [win|]; mrun;
      rewrite ?activateWindow_run; reflexivity.
  - destruct (last ws) as [win|]; mrun;
      rewrite ?activateWindow_run; reflexivity.
Qed.

(** The readers of an element look at the DOM only. *)
Lemma zIndexOf_dom r w w' : w_dom w = w_dom w' → zIndexOf r w = zIndexOf r w'.
Proof. unfold zIndexOf. by intros ->. Qed.

Lemma titleBarOf_dom r w w' : w_dom w = w_dom w' → titleBarOf r w = titleBarOf r w'.
Proof. unfold titleBarOf. by intros ->. Qed.

(** C9: closing the active window.  The element is detached and its entry
    spliced out of [windows]; if no window is left, [activeWindow] is [null];
    otherwise the last window left in [windows], the one created most
    recently, is activated: it is the active window, it has the new
    [maxZIndex] as its z-index and its title bar is not marked inactive.  In
    particular, closing the only open window leaves no active window. *)
Theorem closeWindow_focused el w :
  activeWindow (w_state w) = Some el →
  ∃ w',
    closeWindow el w = (Ret (), w')
    ∧ windows (w_state w') = withoutWindow el (windows (w_state w))
    ∧ (windows (w_state w') = [] →
       getActiveWindow w' = None
       ∧ maxZIndex (w_state w') = maxZIndex (w_state w))
    ∧ (∀ win, last (windows (w_state w')) = Some win →
         getActiveWindow w' = Some (element win)
         ∧ maxZIndex (w_state w') = maxZIndex (w_state w) + 1
         ∧ (is_Some (objects (w_dom w) !! element win) →
            zIndexOf (element win) w' = Some (maxZIndex (w_state w')))
         ∧ titleBarOf (element win) w'
           = (λ _, false) <$> titleBarOf (element win) w)
    ∧ (∀ win, windows (w_state w) = [win] → element win = el →
         getActiveWindow w' = None).
Proof.
  intros Hactive. rewrite (close_active_run el w Hactive). cbv zeta.
  eexists. split; [reflexivity|]. unfold getActiveWindow. mproj.
  destruct (last (withoutWindow el (windows (w_state w)))) as [lastWin|] eqn:Hlast.
  - rewrite activated_state. mproj. split; [reflexivity|]. split; [|split].
    + intros Hnil. rewrite Hnil in Hlast. discriminate.
    + intros win Hwin. rewrite Hlast in Hwin. injection Hwin as <-.
      split; [reflexivity|]. split; [reflexivity|]. split.
      * intros Hsome.
        erewrite (zIndexOf_dom _ _ (activated _ _)) by reflexivity.
        by rewrite activated_zIndexOf.
      * erewrite (titleBarOf_dom _ _ (activated _ _)) by reflexivity.
        rewrite activated_titleBarOf. reflexivity.
    + intros win Hws Hel. rewrite Hws, (withoutWindow_only el win Hel) in Hlast.
      discriminate.
  - mproj. split; [reflexivity|]. split; [done|]. split; [|done].
    intros win Hwin. congruence.
Qed.

Lemma closeWindow_focused_witness :
  activeWindow (w_state twoWindows) = Some 2%positive
  ∧ ∃ w',
      closeWindow 2 twoWindows = (Ret (), w')
      ∧ windows (w_state w') = withoutWindow 2 (windows (w_state twoWindows))
      ∧ (windows (w_state w') = [] →
         getActiveWindow w' = None
         ∧ maxZIndex (w_state w') = maxZIndex (w_state twoWindows))
      ∧ (∀ win, last (windows (w_state w')) = Some win →
           getActiveWindow w' = Some (element win)
           ∧ maxZIndex (w_state w') = maxZIndex (w_state twoWindows) + 1
           ∧ (is_Some (objects (w_dom twoWindows) !! element win) →
              zIndexOf (element win) w' = Some (maxZIndex (w_state w')))
           ∧ titleBarOf (element win) w'
             = (λ _, false) <$> titleBarOf (element win) twoWindows)
      ∧ (∀ win, windows (w_state twoWindows) = [win] → element win = 2%positive →
           getActiveWindow w' = None).
Proof.
  assert (activeWindow (w_state twoWindows) = Some 2%positive) as H
    by (vm_compute; reflexivity).
  split; [exact H|]. exact (closeWindow_focused 2 twoWindows H).
Defined.

(** C10: closing a window that is not the active one.  The element is
    detached and its entry spliced out of [windows], the entries of the other
    windows staying; [activeWindow], [maxZIndex] and [currentMove] keep their
    values, no element object changes (so every window keeps its z-index and
    the marker of its title bar), and the listeners on [document] stay. *)
Theorem closeWindow_unfocused el w :
  activeWindow (w_state w) ≠ Some el →
  ∃ w',
    closeWindow el w = (Ret (), w')
    ∧ windows (w_state w') = withoutWindow el (windows (w_state w))
    ∧ (∀ win, element win ≠ el →
         win ∈ windows (w_state w') ↔ win ∈ windows (w_state w))
    ∧ bodyChildren (w_dom w') = filter (λ c, c ≠ el) (bodyChildren (w_dom w))
    ∧ activeWindow (w_state w') = activeWindow (w_state w)
    ∧ maxZIndex (w_state w') = maxZIndex (w_state w)
    ∧ currentMove (w_state w') = currentMove (w_state w)
    ∧ objects (w_dom w') = objects (w_dom w)
    ∧ documentListeners (w_dom w') = documentListeners (w_dom w)
    ∧ (∀ r, zIndexOf r w' = zIndexOf r w ∧ titleBarOf r w' = titleBarOf r w).
Proof.
  intros Hne. rewrite (close_inactive_run el w Hne).
  eexists. split; [reflexivity|]. mproj. cbn.
  repeat split; try done. all: by apply withoutWindow_other.
Qed.

Lemma closeWindow_unfocused_witness :
  activeWindow (w_state twoWindows) ≠ Some 1%positive
  ∧ ∃ w',
      closeWindow 1 twoWindows = (Ret (), w')
      ∧ windows (w_state w') = withoutWindow 1 (windows (w_state twoWindows))
      ∧ (∀ win, element win ≠ 1%positive →
           win ∈ windows (w_state w') ↔ win ∈ windows (w_state twoWindows))
      ∧ bodyChildren (w_dom w')
        = filter (λ c, c ≠ 1%positive) (bodyChildren (w_dom twoWindows))
      ∧ activeWindow (w_state w') = activeWindow (w_state twoWindows)
      ∧ maxZIndex (w_state w') = maxZIndex (w_state twoWindows)
      ∧ currentMove (w_state w') = currentMove (w_state twoWindows)
      ∧ objects (w_dom w') = objects (w_dom twoWindows)
      ∧ documentListeners (w_dom w') = documentListeners (w_dom twoWindows)
      ∧ (∀ r, zIndexOf r w' = zIndexOf r twoWindows
              ∧ titleBarOf r w' = titleBarOf r twoWindows).
Proof.
  assert (activeWindow (w_state twoWindows) ≠ Some 1%positive) as H
    by (vm_compute; congruence).
  split; [exact H|]. exact (closeWindow_unfocused 1 twoWindows H).
Defined.

(** ** The functions at work on the sample page *)

(** Two windows are opened, the first is activated again, the second is
    closed: the z-indices are 102, 104 and 105, and the first window is the
    one left, active. *)
Example two_windows_session :
  zIndexOf 1 oneWindow = Some 102
  ∧ zIndexOf 2 twoWindows = Some 104
  ∧ titleBarOf 1 twoWindows = Some true
  ∧ zIndexOf 1 (activateWindow 1 twoWindows).2 = Some 105
  ∧ titleBarOf 2 (activateWindow 1 twoWindows).2 = Some true
  ∧ getWindows (closeWindow 2 (activateWindow 1 twoWindows).2).2 = [1%positive]
  ∧ getActiveWindow (closeWindow 2 (activateWindow 1 twoWindows).2).2
    = Some 1%positive.
Proof. vm_compute. repeat split. Qed.

(** On markup with a title bar the close control is wired: a click on it
    closes the window. *)
Example close_control_wired :
  getWindows (deliver 1 NCloseButton (MouseEvent click 10 10 true)
                (mkRect (Some 0) (Some 0)) oneWindow).2 = []
  ∧ bodyChildren (w_dom (deliver 1 NCloseButton (MouseEvent click 10 10 true)
                           (mkRect (Some 0) (Some 0)) oneWindow).2) = []
  ∧ getActiveWindow (deliver 1 NCloseButton (MouseEvent click 10 10 true)
                       (mkRect (Some 0) (Some 0)) oneWindow).2 = None.
Proof. vm_compute. repeat split. Qed.

(** A press on the title bar that lands on the close control neither
    focuses the window nor starts a drag; elsewhere on the title bar it does
    both. *)
Example title_bar_press :
  deliver 1 NTitleBar (MouseEvent mousedown 120 80 true) rectFirst twoWindows
  = (Ret (), twoWindows)
  ∧ getActiveWindow (deliver 1 NTitleBar pressFirst rectFirst twoWindows).2
    = Some 1%positive
  ∧ windowElement
      <$> currentMove (w_state (deliver 1 NTitleBar pressFirst rectFirst twoWindows).2)
    = Some 1%positive.
Proof. vm_compute. repeat split. Qed.

(** The pointer moves by (30, 15) while the first window, which was at
    (100, 50), is dragged, and the button is released. *)
Example drag_first_window :
  styleOf 1 (deliverDocument moveFirst draggingFirst).2
  = Some (mkStyle "absolute" "400px" "300px" "65px" "130px" "auto" "auto" (Some 105))
  ∧ currentMove
      (w_state (deliverDocument (MouseEvent mouseup 150 95 false)
                  (deliverDocument moveFirst draggingFirst).2).2) = None
  ∧ documentListeners
      (w_dom (deliverDocument (MouseEvent mouseup 150 95 false)
                (deliverDocument moveFirst draggingFirst).2).2) = [].
Proof. vm_compute. repeat split. Qed.

(** * More of the module: invariants, round trips and edge cases *)

(** ** Relations kept by the computations of the monad *)

Section Keeps.
Context (R : relation World) `{!PreOrder R}.

Lemma keeps_ret {A} (a : A) : keeps R (mret a).
Proof. intros w. reflexivity. Qed.

Lemma keeps_throw {A} e : keeps R (@throw A e).
Proof. intros w. reflexivity. Qed.

Lemma keeps_getState : keeps R getState.
Proof. intros w. reflexivity. Qed.

Lemma keeps_getDom : keeps R getDom.
Proof. intros w. reflexivity. Qed.

Lemma keeps_bind {A B} (m : M A) (k : A → M B) :
  keeps R m → (∀ a, keeps R (k a)) → keeps R (m ≫= k).
Proof.
  intros Hm Hk w. specialize (Hm w).
  unfold mbind, M_bind, bind. destruct (m w) as [[a|e] w1]; [|exact Hm].
  etrans; [exact Hm|]. apply Hk.
Qed.

Lemma keeps_try_catch {A} (m : M A) (h : Exn → M A) :
  keeps R m → (∀ e, keeps R (h e)) → keeps R (try_catch m h).
Proof.
  intros Hm Hh w. specialize (Hm w).
  unfold try_catch. destruct (m w) as [[a|e] w1]; [exact Hm|].
  etrans; [exact Hm|]. apply Hh.
Qed.

Lemma keeps_forEach {A} (l : list A) (f : A → M unit) :
  (∀ x, keeps R (f x)) → keeps R (forEach l f).
Proof.
  intros Hf. induction l as [|x l IH]; [apply keeps_ret|].
  cbn [forEach]. apply keeps_bind; [apply Hf|intros _; exact IH].
Qed.
End Keeps.

(** One step of the descent into a computation. *)
Ltac keeps_step :=
  lazymatch goal with
  | |- keeps _ (mbind _ _) => apply keeps_bind; [tc_solve| |intros ?]
  | |- keeps _ (mret _) => apply keeps_ret; tc_solve
  | |- keeps _ (throw _) => apply keeps_throw; tc_solve
  | |- keeps _ getState => apply keeps_getState; tc_solve
  | |- keeps _ getDom => apply keeps_getDom; tc_solve
  | |- keeps _ (try_catch _ _) => apply keeps_try_catch; [tc_solve| |intros ?]
  | |- keeps _ (forEach _ _) => apply keeps_forEach; [tc_solve|intros ?]
  | |- keeps _ (match ?x with _ => _ end) => destruct x
  | |- keeps _ (let _ := _ in _) => cbv zeta
  end.

Create HintDb keeps discriminated.

(** The descent: one step, or what is known of the function called. *)
Ltac keeps_descend := repeat first [ keeps_step | solve [auto with keeps] ].

(** *** [maxZIndex] never goes down *)

#[local] Instance grows_preorder : PreOrder grows.
Proof. split; unfold grows; [intros w; lia | intros w1 w2 w3; lia]. Qed.

Ltac grows_prim :=
  intros [[? ? ? ?] ? ?]; unfold grows; cbn; lia.

Lemma activateWindow_grows el : keeps grows (activateWindow el).
Proof.
  unfold activateWindow, windowIdOf, readElement, log, updateElement.
  keeps_descend; grows_prim.
Qed.
#[local] Hint Resolve activateWindow_grows : keeps.

Lemma startMove_grows el event rect : keeps grows (startMove el event rect).
Proof.
  unfold startMove, firstTouch, windowIdOf, readElement, log, addDocumentListener.
  keeps_descend; grows_prim.
Qed.

Lemma handleMove_grows event : keeps grows (handleMove event).
Proof.
  unfold handleMove, updateElement.
  keeps_descend; grows_prim.
Qed.

Lemma endMove_grows : keeps grows endMove.
Proof.
  unfold endMove, windowIdOf, readElement, log, removeDocumentListener.
  keeps_descend; grows_prim.
Qed.

Lemma closeWindow_grows el : keeps grows (closeWindow el).
Proof.
  unfold closeWindow, windowIdOf, readElement, log, removeNode.
  keeps_descend; grows_prim.
Qed.

Lemma bindWindowEvents_grows el : keeps grows (bindWindowEvents el).
Proof.
  unfold bindWindowEvents, windowIdOf, readElement, log, addEventListener,
    updateElement.
  keeps_descend; grows_prim.
Qed.
#[local] Hint Resolve bindWindowEvents_grows : keeps.

Lemma createWindow_start_grows appPath checkDuplicate :
  keeps grows (createWindow_start appPath checkDuplicate).
Proof.
  unfold createWindow_start, log.
  keeps_descend; grows_prim.
Qed.

Lemma createWindow_resume_grows appPath g outcome windowId :
  keeps grows (createWindow_resume appPath g outcome windowId).
Proof.
  unfold createWindow_resume, createElement, appendChild, log, updateElement.
  keeps_descend; grows_prim.
Qed.

(** *** From the functions to sessions *)

Section Sessions.
Context (R : relation World) `{!PreOrder R}.
Hypothesis R_emit : ∀ c, keeps R (emit c).
Hypothesis R_start : ∀ appPath checkDuplicate,
  keeps R (createWindow_start appPath checkDuplicate).
Hypothesis R_resume : ∀ appPath g outcome windowId,
  keeps R (createWindow_resume appPath g outcome windowId).
Hypothesis R_activate : ∀ el, keeps R (activateWindow el).
Hypothesis R_close : ∀ el, keeps R (closeWindow el).
Hypothesis R_startMove : ∀ el event rect, keeps R (startMove el event rect).
Hypothesis R_handleMove : ∀ event, keeps R (handleMove event).
Hypothesis R_endMove : keeps R endMove.

Lemma runHandler_keeps h el event rect : keeps R (runHandler h el event rect).
Proof.
  induction h as [closeButton inner IH| | | |]; cbn [runHandler]; auto.
  destruct (closeButton && targetOnClose event); [|exact IH].
  by apply keeps_ret.
Qed.

Lemma deliver_keeps el n event rect : keeps R (deliver el n event rect).
Proof.
  unfold deliver, readElement, reported.
  repeat first [ keeps_step | apply runHandler_keeps | apply R_emit ].
Qed.

Lemma deliverDocument_keeps event : keeps R (deliverDocument event).
Proof.
  unfold deliverDocument, reported.
  repeat first [ keeps_step | apply R_handleMove | apply R_endMove
               | apply R_emit ].
Qed.

Lemma perform_keeps a w : R w (perform a w).
Proof.
  destruct a; cbn [perform];
    [apply R_start | apply R_resume | apply R_activate | apply R_close
    | apply deliver_keeps | apply deliverDocument_keeps].
Qed.

Lemma run_keeps acts w : R w (run acts w).
Proof.
  revert w. induction acts as [|a acts IH]; intros w; [reflexivity|].
  cbn. etrans; [apply (perform_keeps a)|apply IH].
Qed.
End Sessions.

(** X3: in a session, whatever is called and whatever events arrive,
    [maxZIndex] never goes down. *)
Theorem run_maxZIndex_grows acts w :
  (maxZIndex (w_state w) ≤ maxZIndex (w_state (run acts w)))%Z.
Proof.
  apply (run_keeps grows); auto using createWindow_start_grows,
    createWindow_resume_grows, activateWindow_grows, closeWindow_grows,
    startMove_grows, handleMove_grows, endMove_grows.
  intros c. grows_prim.
Qed.

(** *** What each function leaves alone *)

#[local] Instance sameDrag_preorder : PreOrder sameDrag.
Proof.
  split; unfold sameDrag; [done|].
  intros w1 w2 w3 [? ?] [? ?]. split; congruence.
Qed.

#[local] Instance sameRegistry_preorder : PreOrder sameRegistry.
Proof.
  split; unfold sameRegistry; [done|].
  intros w1 w2 w3 (? & ? & ?) (? & ? & ?). repeat split; congruence.
Qed.

#[local] Instance sameStack_preorder : PreOrder sameStack.
Proof.
  split; unfold sameStack; [done|].
  intros w1 w2 w3 [? H12] [? H23]. split; [congruence|].
  intros r. by rewrite H23, H12.
Qed.

#[local] Instance sameStyles_preorder : PreOrder sameStyles.
Proof.
  split; unfold sameStyles; [done|].
  intros w1 w2 w3 (? & ? & ? & H12) (? & ? & ? & H23).
  repeat split; try congruence.
Qed.

#[local] Instance pres_preorder P : PreOrder (pres P).
Proof. split; [intros w|intros w1 w2 w3]; unfold pres; tauto. Qed.

Lemma keeps_weaken {A} (R R' : relation World) (m : M A) :
  (∀ w w', R w w' → R' w w') → keeps R m → keeps R' m.
Proof. intros HR Hm w. apply HR, Hm. Qed.

Ltac sameDrag_prim :=
  intros [[? ? ? ?] [? ? ?] ?]; unfold sameDrag; cbn; done.

Ltac sameRegistry_prim :=
  intros [[? ? ? ?] [? ? ?] ?]; unfold sameRegistry; cbn;
  repeat case_decide; cbn; rewrite ?dom_alter_L; done.

(** The updates of an element that leave its style, or its z-index,
    alone. *)
Ltac same_lookup :=
  intros ?; unfold zIndexOf, styleOf; cbn; rewrite lookup_alter;
  case_decide; subst; [|done];
  match goal with |- context [?o !! ?r] => destruct (o !! r) end; cbn;
  rewrite ?set_titleBar_inactive_style; done.

Ltac sameStack_prim :=
  intros [[? ? ? ?] [? ? ?] ?]; unfold sameStack; cbn;
  repeat case_decide; cbn; (split; [done|]); first [done | same_lookup].

Ltac sameStyles_prim :=
  intros [[? ? ? ?] [? ? ?] ?]; unfold sameStyles; cbn;
  (split; [done|]); (split; [done|]); (split; [done|]);
  first [done | same_lookup].

Lemma activateWindow_sameDrag el : keeps sameDrag (activateWindow el).
Proof.
  unfold activateWindow, windowIdOf, readElement, log, updateElement.
  keeps_descend; sameDrag_prim.
Qed.

Lemma activateWindow_sameRegistry el : keeps sameRegistry (activateWindow el).
Proof.
  unfold activateWindow, windowIdOf, readElement, log, updateElement.
  keeps_descend; sameRegistry_prim.
Qed.

Lemma bindWindowEvents_sameStyles el : keeps sameStyles (bindWindowEvents el).
Proof.
  unfold bindWindowEvents, windowIdOf, readElement, log, addEventListener,
    updateElement.
  keeps_descend; sameStyles_prim.
Qed.

Lemma handleMove_sameDrag event : keeps sameDrag (handleMove event).
Proof. unfold handleMove, updateElement. keeps_descend; sameDrag_prim. Qed.

Lemma handleMove_sameRegistry event : keeps sameRegistry (handleMove event).
Proof. unfold handleMove, updateElement. keeps_descend; sameRegistry_prim. Qed.

Lemma handleMove_sameStack event : keeps sameStack (handleMove event).
Proof. unfold handleMove, updateElement. keeps_descend; sameStack_prim. Qed.

Lemma endMove_sameRegistry : keeps sameRegistry endMove.
Proof.
  unfold endMove, windowIdOf, readElement, log, removeDocumentListener.
  keeps_descend; sameRegistry_prim.
Qed.

Lemma endMove_sameStack : keeps sameStack endMove.
Proof.
  unfold endMove, windowIdOf, readElement, log, removeDocumentListener.
  keeps_descend; sameStack_prim.
Qed.

Lemma closeWindow_sameDrag el : keeps sameDrag (closeWindow el).
Proof.
  unfold closeWindow, windowIdOf, readElement, log, removeNode.
  pose proof activateWindow_sameDrag.
  keeps_descend; sameDrag_prim.
Qed.

Lemma createWindow_start_sameDrag appPath checkDuplicate :
  keeps sameDrag (createWindow_start appPath checkDuplicate).
Proof.
  unfold createWindow_start, log. pose proof activateWindow_sameDrag.
  keeps_descend; sameDrag_prim.
Qed.

Lemma createWindow_start_sameRegistry appPath checkDuplicate :
  keeps sameRegistry (createWindow_start appPath checkDuplicate).
Proof.
  unfold createWindow_start, log. pose proof activateWindow_sameRegistry.
  keeps_descend; sameRegistry_prim.
Qed.

Lemma startMove_sameRegistry el event rect :
  keeps sameRegistry (startMove el event rect).
Proof.
  unfold startMove, firstTouch, windowIdOf, readElement, log, addDocumentListener.
  pose proof activateWindow_sameRegistry.
  keeps_descend; sameRegistry_prim.
Qed.

(** *** The runs of [createWindow], [startMove] and [endMove] *)

Lemma fetch_cases outcome : fetchFailed outcome ∨ ∃ c, fetched c outcome.
Proof.
  destruct outcome as [e|[] status statusText [e|c]]; cbn; eauto.
  right. exists c, status, statusText. reflexivity.
Qed.

Lemma createWindow_resume_failed appPath g outcome windowId w :
  fetchFailed outcome →
  sameWorld w (createWindow_resume appPath g outcome windowId w).2.
Proof.
  destruct w as [s d k]. unfold createWindow_resume, sameWorld.
  destruct outcome as [e|ok status statusText text]; cbn [fetchFailed].
  - intros _. mrun. done.
  - intros [->|[e ->]]; [|destruct ok]; mrun; done.
Qed.

(** When the fetch has delivered markup, [createWindow] assembles the
    window, wires it, which changes no style, and, if the wiring ran to its
    end, activates it. *)
Lemma createWindow_resume_cases appPath g outcome windowId w c :
  fetched c outcome →
  ∃ w2,
    sameStyles (assembled appPath g c windowId w) w2
    ∧ (sameWorld w2 (createWindow_resume appPath g outcome windowId w).2
       ∨ sameWorld (activated (fresh (dom (objects (w_dom w)))) w2)
           (createWindow_resume appPath g outcome windowId w).2).
Proof.
  intros (status & statusText & ->).
  destruct w as [[ws z a m] [o b l] k]. mproj.
  set (r := fresh (dom o)).
  unfold createWindow_resume, assembled, createdStyle. mrun. cbn [negb].
  fold r. rewrite !alter_insert_eq. erun.
  match goal with
  | |- context [bindWindowEvents r ?W] =>
      pose proof (bindWindowEvents_sameStyles r W) as Hsame;
      destruct (bindWindowEvents r W) as [[[]|e] w2]
  end; cbn [snd] in Hsame; exists w2; (split; [exact Hsame|]).
  - right. mrun. rewrite activateWindow_run. unfold sameWorld. mrun. done.
  - left. unfold sameWorld. mrun. done.
Qed.

(** *** No element above [maxZIndex] *)

Lemma stackBound_sameWorld w w' : sameWorld w w' → stackBound w → stackBound w'.
Proof.
  destruct w, w'. unfold sameWorld, stackBound, zIndexOf. cbn.
  intros [-> ->]. done.
Qed.

Lemma stackBound_sameStack w w' : sameStack w w' → stackBound w → stackBound w'.
Proof.
  unfold sameStack, stackBound. intros [Hmax Hz] H r z. rewrite Hz, Hmax. apply H.
Qed.

Lemma sameStyles_sameStack w w' : sameStyles w w' → sameStack w w'.
Proof.
  unfold sameStyles, sameStack. intros (Hs & _ & _ & Hstyle).
  split; [by rewrite Hs|]. intros r. specialize (Hstyle r).
  unfold styleOf, zIndexOf in *.
  destruct (objects (w_dom w') !! r), (objects (w_dom w) !! r);
    cbn in *; congruence.
Qed.

Lemma stackBound_activated el w : stackBound w → stackBound (activated el w).
Proof.
  unfold stackBound. intros H r z. rewrite activated_state. mproj.
  destruct (decide (r = el)) as [->|Hne].
  - unfold zIndexOf. rewrite activated_lookup.
    destruct (objects (w_dom w) !! el) as [e|]; [|done]. cbn.
    rewrite decide_True by done. rewrite set_titleBar_inactive_style. cbn.
    intros [= <-]. lia.
  - rewrite activated_zIndexOf_ne by done. intros Hz. apply H in Hz. lia.
Qed.

Lemma stackBound_assembled appPath g c windowId w :
  stackBound w → stackBound (assembled appPath g c windowId w).
Proof.
  unfold stackBound, assembled, zIndexOf. mproj. intros H r z.
  rewrite lookup_insert. case_decide as Hr.
  - cbn. intros [= <-]. lia.
  - intros Hz. apply H in Hz. lia.
Qed.

Lemma activateWindow_stackBound el : keeps (pres stackBound) (activateWindow el).
Proof. intros w H. rewrite activateWindow_run. by apply stackBound_activated. Qed.

Ltac stackBound_prim :=
  apply (keeps_weaken sameStack); [exact stackBound_sameStack|sameStack_prim].

Lemma closeWindow_stackBound el : keeps (pres stackBound) (closeWindow el).
Proof.
  unfold closeWindow, windowIdOf, readElement, log, removeNode.
  pose proof activateWindow_stackBound.
  keeps_descend; stackBound_prim.
Qed.

Lemma startMove_stackBound el event rect :
  keeps (pres stackBound) (startMove el event rect).
Proof.
  unfold startMove, firstTouch, windowIdOf, readElement, log, addDocumentListener.
  pose proof activateWindow_stackBound.
  keeps_descend; stackBound_prim.
Qed.

Lemma createWindow_start_stackBound appPath checkDuplicate :
  keeps (pres stackBound) (createWindow_start appPath checkDuplicate).
Proof.
  unfold createWindow_start, log. pose proof activateWindow_stackBound.
  keeps_descend; stackBound_prim.
Qed.

Lemma createWindow_resume_stackBound appPath g outcome windowId :
  keeps (pres stackBound) (createWindow_resume appPath g outcome windowId).
Proof.
  intros w H. destruct (fetch_cases outcome) as [Hfail|[c Hc]].
  - eapply stackBound_sameWorld; [by apply createWindow_resume_failed|done].
  - destruct (createWindow_resume_cases appPath g outcome windowId w c Hc)
      as (w2 & Hsame & [Hw|Hw]);
      (eapply stackBound_sameWorld; [exact Hw|]);
      [|apply stackBound_activated];
      (eapply stackBound_sameStack; [apply sameStyles_sameStack, Hsame|]);
      by apply stackBound_assembled.
Qed.

Lemma stackBound_emptyWorld : stackBound emptyWorld.
Proof. intros r z. vm_compute. discriminate. Qed.

(** X4: in a session that starts with no element above [maxZIndex], no
    element is ever above [maxZIndex]. *)
Theorem run_stackBound acts w : stackBound w → stackBound (run acts w).
Proof.
  apply (run_keeps (pres stackBound)).
  - intros c. stackBound_prim.
  - apply createWindow_start_stackBound.
  - apply createWindow_resume_stackBound.
  - apply activateWindow_stackBound.
  - apply closeWindow_stackBound.
  - apply startMove_stackBound.
  - intros event. apply (keeps_weaken sameStack);
      [exact stackBound_sameStack|apply handleMove_sameStack].
  - apply (keeps_weaken sameStack);
      [exact stackBound_sameStack|apply endMove_sameStack].
Qed.

Lemma run_stackBound_witness :
  stackBound emptyWorld
  ∧ stackBound
      (run [CreateStart "/apps/notes.html" None;
            CreateResume "/apps/notes.html" size400x300 (okResponse fullMarkup)
              "win_1_aaaa";
            Deliver 1 NTitleBar pressFirst rectFirst;
            DeliverDocument moveFirst] emptyWorld).
Proof.
  pose proof stackBound_emptyWorld as H.
  split; [exact H|]. exact (run_stackBound _ emptyWorld H).
Defined.

Lemma createWindow_stackBound appPath g checkDuplicate outcome windowId :
  keeps (pres stackBound)
    (createWindow appPath g checkDuplicate outcome windowId).
Proof.
  unfold createWindow. apply keeps_bind; [tc_solve| |intros [result|]].
  - apply createWindow_start_stackBound.
  - apply keeps_ret; tc_solve.
  - apply createWindow_resume_stackBound.
Qed.

Lemma stackBound_twoWindows : stackBound twoWindows.
Proof.
  apply createWindow_stackBound, createWindow_stackBound, stackBound_emptyWorld.
Qed.

(** X2: where no element is above [maxZIndex], [activateWindow] puts the
    element strictly above every other element, and leaves it the only
    registered window whose title bar is not marked inactive. *)
Theorem activateWindow_frontmost el w :
  stackBound w → is_Some (objects (w_dom w) !! el) →
  ∃ w',
    activateWindow el w = (Ret (), w')
    ∧ zIndexOf el w' = Some (maxZIndex (w_state w'))
    ∧ (∀ r z, r ≠ el → zIndexOf r w' = Some z → (z < maxZIndex (w_state w'))%Z)
    ∧ (∀ r, r ≠ el → r ∈ getWindows w' → titleBarOf r w' ≠ Some false).
Proof.
  intros Hbound Hel. exists (activated el w).
  split; [apply activateWindow_run|]. rewrite activated_state. mproj.
  split; [by apply activated_zIndexOf|]. split.
  - intros r z Hne. rewrite activated_zIndexOf_ne by done.
    intros Hz. apply Hbound in Hz. lia.
  - intros r Hne Hin. unfold getWindows in Hin. rewrite activated_state in Hin.
    rewrite activated_titleBarOf_ne by done.
    by destruct (titleBarOf r w).
Qed.

Lemma activateWindow_frontmost_witness :
  stackBound twoWindows
  ∧ is_Some (objects (w_dom twoWindows) !! 1%positive)
  ∧ ∃ w',
      activateWindow 1 twoWindows = (Ret (), w')
      ∧ zIndexOf 1 w' = Some (maxZIndex (w_state w'))
      ∧ (∀ r z, r ≠ 1%positive → zIndexOf r w' = Some z →
           (z < maxZIndex (w_state w'))%Z)
      ∧ (∀ r, r ≠ 1%positive → r ∈ getWindows w' →
           titleBarOf r w' ≠ Some false).
Proof.
  pose proof stackBound_twoWindows as Hb.
  assert (is_Some (objects (w_dom twoWindows) !! 1%positive)) as Hs
    by (vm_compute; eauto).
  split; [exact Hb|]. split; [exact Hs|].
  exact (activateWindow_frontmost 1 twoWindows Hb Hs).
Defined.

(** *** The registry *)

Lemma filter_ne_id {A} `{EqDecision A} (x : A) (l : list A) :
  x ∉ l → filter (λ y, y ≠ x) l = l.
Proof.
  induction l as [|y l IH]; [done|]. rewrite not_elem_of_cons. intros [Hne Hl].
  rewrite filter_cons, decide_True by done. by rewrite IH.
Qed.

(** Under distinct elements, the splice takes the element out of the list
    of elements. *)
Lemma withoutWindow_elements el ws :
  NoDup (element <$> ws) →
  element <$> withoutWindow el ws = filter (λ r, r ≠ el) (element <$> ws).
Proof.
  intros Hnd. unfold withoutWindow.
  destruct (list_find _ ws) as [[index found]|] eqn:Hfind.
  - apply list_find_Some in Hfind as (Hlook & Hel & _).
    rewrite delete_take_drop.
    rewrite <- (take_drop_middle ws index found Hlook) in Hnd |- * at 3.
    rewrite !fmap_app, fmap_cons, Hel in *.
    apply NoDup_app in Hnd as (_ & Hleft & Hright).
    apply NoDup_cons in Hright as [Hright _].
    rewrite filter_app, filter_cons, decide_False by (intros H; by apply H).
    rewrite !filter_ne_id; [done|done|].
    intros Hin. apply (Hleft el Hin). apply list_elem_of_here.
  - apply list_find_None in Hfind. rewrite filter_ne_id; [done|].
    intros (win & Hel & Hin)%list_elem_of_fmap.
    rewrite Forall_forall in Hfind. by apply (Hfind win Hin).
Qed.

(** What [closeWindow] does to the registry, whichever window is active. *)
Lemma closeWindow_registry el w :
  windows (w_state (closeWindow el w).2) = withoutWindow el (windows (w_state w))
  ∧ bodyChildren (w_dom (closeWindow el w).2)
    = filter (λ c, c ≠ el) (bodyChildren (w_dom w))
  ∧ dom (objects (w_dom (closeWindow el w).2)) = dom (objects (w_dom w)).
Proof.
  destruct (decide (activeWindow (w_state w) = Some el)) as [Ha|Ha].
  - rewrite (close_active_run el w Ha). cbv zeta. cbn [snd]. mproj.
    destruct (last (withoutWindow el (windows (w_state w)))) as [win|].
    + pose proof (activateWindow_sameRegistry (element win)) as Hsame.
      match goal with
      | |- context [activated _ ?W] => specialize (Hsame W)
      end.
      rewrite activateWindow_run in Hsame. cbn [snd] in Hsame.
      destruct Hsame as (-> & -> & ->). done.
    + done.
  - rewrite (close_inactive_run el w Ha). done.
Qed.

Lemma registryOk_sameRegistry w w' :
  sameRegistry w w' → registryOk w → registryOk w'.
Proof.
  unfold sameRegistry, registryOk, getWindows.
  intros (-> & -> & Hdom) (Hnd & Hstored & Hattached & Hbody).
  repeat split; try done.
  intros r Hr. apply elem_of_dom. rewrite Hdom. apply elem_of_dom. by apply Hstored.
Qed.

Lemma registryOk_sameWorld w w' : sameWorld w w' → registryOk w → registryOk w'.
Proof.
  destruct w, w'. unfold sameWorld, registryOk, getWindows. cbn.
  intros [-> ->]. done.
Qed.

Lemma sameStyles_sameRegistry w w' : sameStyles w w' → sameRegistry w w'.
Proof.
  unfold sameStyles, sameRegistry. intros (-> & -> & _ & Hstyle).
  repeat split. apply set_eq. intros r. rewrite !elem_of_dom.
  specialize (Hstyle r). unfold styleOf in Hstyle.
  rewrite <- !(fmap_is_Some style). by rewrite Hstyle.
Qed.

Lemma registryOk_assembled appPath g c windowId w :
  registryOk w → registryOk (assembled appPath g c windowId w).
Proof.
  unfold registryOk, assembled, getWindows. mproj.
  intros (Hnd & Hstored & Hattached & Hbody).
  set (r := fresh (dom (objects (w_dom w)))).
  assert (r ∉ element <$> windows (w_state w)) as Hfresh.
  { intros Hin. apply Hstored, elem_of_dom in Hin. by apply is_fresh in Hin. }
  rewrite fmap_app. cbn [fmap list_fmap element]. repeat split.
  - apply NoDup_app. split; [done|]. split; [|apply NoDup_singleton].
    intros x Hx ->%list_elem_of_singleton. done.
  - intros x [Hx| ->%list_elem_of_singleton]%elem_of_app.
    + rewrite lookup_insert_ne; [by apply Hstored|]. intros ->. done.
    + rewrite lookup_insert_eq. eauto.
  - intros x [Hx| ->%list_elem_of_singleton]%elem_of_app.
    + apply elem_of_app. left. apply list_elem_of_filter. split.
      * intros ->. done.
      * by apply Hattached.
    + apply elem_of_app. right. apply list_elem_of_here.
  - apply NoDup_app. split; [by apply NoDup_filter|].
    split; [|apply NoDup_singleton].
    intros x [Hx _]%list_elem_of_filter ->%list_elem_of_singleton. done.
Qed.

Lemma closeWindow_registryOk el : keeps (pres registryOk) (closeWindow el).
Proof.
  intros w (Hnd & Hstored & Hattached & Hbody).
  destruct (closeWindow_registry el w) as (Hw & Hb & Hd).
  unfold registryOk, getWindows in *. rewrite Hw, Hb.
  rewrite withoutWindow_elements by done. repeat split.
  - by apply NoDup_filter.
  - intros r [_ Hr]%list_elem_of_filter. apply elem_of_dom. rewrite Hd.
    apply elem_of_dom. by apply Hstored.
  - intros r [Hne Hr]%list_elem_of_filter. apply list_elem_of_filter.
    split; [done|]. by apply Hattached.
  - by apply NoDup_filter.
Qed.

Lemma createWindow_resume_registryOk appPath g outcome windowId :
  keeps (pres registryOk) (createWindow_resume appPath g outcome windowId).
Proof.
  intros w H. destruct (fetch_cases outcome) as [Hfail|[c Hc]].
  - eapply registryOk_sameWorld; [by apply createWindow_resume_failed|done].
  - destruct (createWindow_resume_cases appPath g outcome windowId w c Hc)
      as (w2 & Hsame & [Hw|Hw]);
      (eapply registryOk_sameWorld; [exact Hw|]).
    + eapply registryOk_sameRegistry; [apply sameStyles_sameRegistry, Hsame|].
      by apply registryOk_assembled.
    + eapply registryOk_sameRegistry.
      { pose proof (activateWindow_sameRegistry
                      (fresh (dom (objects (w_dom w)))) w2) as Ha.
        rewrite activateWindow_run in Ha. exact Ha. }
      eapply registryOk_sameRegistry; [apply sameStyles_sameRegistry, Hsame|].
      by apply registryOk_assembled.
Qed.

Lemma registryOk_emptyWorld : registryOk emptyWorld.
Proof. vm_compute. repeat split; try apply NoDup_nil_2; intros r Hr; inversion Hr. Qed.

(** X5: in a session that starts with a sound registry, the registry stays
    sound: no element is registered twice, every registered element is an
    object of the store and attached to the body, and no child of the body
    is listed twice. *)
Theorem run_registryOk acts w : registryOk w → registryOk (run acts w).
Proof.
  assert (∀ A (m : M A), keeps sameRegistry m → keeps (pres registryOk) m) as Hframe.
  { intros A m. apply keeps_weaken. exact registryOk_sameRegistry. }
  apply (run_keeps (pres registryOk)).
  - intros c. apply Hframe. sameRegistry_prim.
  - intros. apply Hframe, createWindow_start_sameRegistry.
  - apply createWindow_resume_registryOk.
  - intros. apply Hframe, activateWindow_sameRegistry.
  - apply closeWindow_registryOk.
  - intros. apply Hframe, startMove_sameRegistry.
  - intros. apply Hframe, handleMove_sameRegistry.
  - apply Hframe, endMove_sameRegistry.
Qed.

Lemma run_registryOk_witness :
  registryOk emptyWorld
  ∧ registryOk
      (run [CreateStart "/apps/notes.html" None;
            CreateResume "/apps/notes.html" size400x300 (okResponse fullMarkup)
              "win_1_aaaa";
            CreateResume "/apps/paint.html" size400x300
              (okResponse noStatusBarMarkup) "win_2_bbbb";
            Close 1] emptyWorld).
Proof.
  pose proof registryOk_emptyWorld as H.
  split; [exact H|]. exact (run_registryOk _ emptyWorld H).
Defined.

(** *** The drag *)

(** [startMove] when it can read the position of the pointer: the window
    is activated, the drag recorded and its two listeners bound. *)
Lemma startMove_pressed el event rect w p :
  pressPoint event = Some p →
  let m := mkMoveInfo el p.1 p.2 (rect_left rect) (rect_top rect)
             (bool_decide (type event = touchstart)) in
  ∃ k,
    startMove el event rect w
    = (Ret (),
       mkWorld (set_currentMove (Some m) (w_state (activated el w)))
         (set_documentListeners
            (withListener (endListener m)
               (withListener (moveListener m) (documentListeners (w_dom w))))
            (w_dom (activated el w)))
         k).
Proof.
  destruct w as [[ws z a cm] [o b l] k]. unfold pressPoint, startMove.
  intros Hp. cbv zeta. mrun. rewrite activateWindow_run. unfold firstTouch.
  unfold moveListener, endListener, withListener. cbn [isTouch].
  destruct (decide (type event = touchstart)) as [Ht|Ht].
  - rewrite (bool_decide_eq_true_2 _ Ht).
    destruct (touches event) as [[|[x y] ts]|]; try discriminate.
    injection Hp as <-. mrun. cbn [from_option isTouch forEach fst snd]. mrun.
    unfold activated. mrun.
    repeat case_decide; try (exfalso; intuition congruence);
      eexists; reflexivity.
  - rewrite (bool_decide_eq_false_2 _ Ht). injection Hp as <-.
    mrun. cbn [from_option isTouch forEach fst snd]. mrun.
    unfold activated. mrun.
    repeat case_decide; try (exfalso; intuition congruence);
      eexists; reflexivity.
Qed.

(** [startMove] when it cannot: a [touchstart] without touches.  The window
    is activated and nothing else is done. *)
Lemma startMove_thrown el event rect w :
  pressPoint event = None →
  ∃ msg k,
    startMove el event rect w
    = (Throw (TypeError msg),
       mkWorld (w_state (activated el w)) (w_dom (activated el w)) k).
Proof.
  destruct w as [[ws z a cm] [o b l] k]. unfold pressPoint, startMove.
  intros Hp. mrun. rewrite activateWindow_run. unfold firstTouch.
  destruct (decide (type event = touchstart)) as [Ht|Ht]; [|discriminate].
  destruct (touches event) as [[|[x y] ts]|]; try discriminate;
    mrun; eauto.
Qed.

(** [endMove] during a drag. *)
Lemma endMove_active w m :
  currentMove (w_state w) = Some m →
  ∃ k,
    endMove w
    = (Ret (),
       mkWorld (set_currentMove None (w_state w))
         (set_documentListeners
            (filter (λ l, l ≠ endListener m)
               (filter (λ l, l ≠ moveListener m) (documentListeners (w_dom w))))
            (w_dom w))
         k).
Proof.
  destruct w as [[ws z a cm] [o b dl] k]. mproj. intros ->.
  unfold endMove, moveListener, endListener. mrun.
  destruct (isTouch m); cbn [forEach]; mrun;
    repeat case_decide; try (exfalso; intuition congruence);
    eexists; reflexivity.
Qed.

Lemma elem_of_withListener x y l :
  y ∈ withListener x l ↔ y = x ∨ y ∈ l.
Proof.
  unfold withListener. case_decide as Hx.
  - split; [by right|]. intros [->|?]; done.
  - rewrite elem_of_app, list_elem_of_singleton. tauto.
Qed.

Lemma NoDup_withListener x l : NoDup l → NoDup (withListener x l).
Proof.
  unfold withListener. intros Hl. case_decide as Hx; [done|].
  apply NoDup_app. split; [done|]. split; [|apply NoDup_singleton].
  intros y Hy ->%list_elem_of_singleton. done.
Qed.

Lemma dragListeners_move m : moveListener m ∈ dragListeners.
Proof. unfold moveListener, dragListeners. destruct (isTouch m); set_solver. Qed.

Lemma dragListeners_end m : endListener m ∈ dragListeners.
Proof. unfold endListener, dragListeners. destruct (isTouch m); set_solver. Qed.

Lemma dragWired_sameDrag w w' : sameDrag w w' → dragWired w → dragWired w'.
Proof. unfold sameDrag, dragWired. intros [-> ->]. done. Qed.

Lemma dragWired_sameWorld w w' : sameWorld w w' → dragWired w → dragWired w'.
Proof. unfold sameWorld, dragWired. intros [-> ->]. done. Qed.

Lemma sameStyles_sameDrag w w' : sameStyles w w' → sameDrag w w'.
Proof. unfold sameStyles, sameDrag. intros (-> & _ & -> & _). done. Qed.

Lemma dragWired_activated el w : dragWired w → dragWired (activated el w).
Proof. done. Qed.

Lemma dragWired_assembled appPath g c windowId w :
  dragWired w → dragWired (assembled appPath g c windowId w).
Proof. done. Qed.

Lemma startMove_dragWired el event rect :
  keeps (pres dragWired) (startMove el event rect).
Proof.
  intros w (Hnd & Hsub & Hdrag).
  destruct (pressPoint event) as [p|] eqn:Hp.
  - destruct (startMove_pressed el event rect w p Hp) as [k ->]. cbv zeta.
    unfold dragWired, set_currentMove, set_documentListeners. cbn [snd]. mproj.
    repeat split.
    + by do 2 apply NoDup_withListener.
    + intros l [->|[->|Hl]%elem_of_withListener]%elem_of_withListener;
        auto using dragListeners_move, dragListeners_end.
    + injection H as <-. rewrite !elem_of_withListener. auto.
    + injection H as <-. rewrite !elem_of_withListener. auto.
  - destruct (startMove_thrown el event rect w Hp) as (msg & k & ->).
    done.
Qed.

Lemma endMove_dragWired : keeps (pres dragWired) endMove.
Proof.
  intros w Hw.
  destruct (currentMove (w_state w)) as [m|] eqn:Hm;
    [|by rewrite (endMove_idle w Hm)].
  destruct Hw as (Hnd & Hsub & Hdrag).
  - destruct (endMove_active w m Hm) as [k ->].
    unfold dragWired, set_currentMove, set_documentListeners. cbn [snd]. mproj.
    repeat split; try done.
    + by do 2 apply NoDup_filter.
    + intros l [_ [_ Hl]%list_elem_of_filter]%list_elem_of_filter. auto.
Qed.

Lemma dragWired_emptyWorld : dragWired emptyWorld.
Proof.
  vm_compute. repeat split; try apply NoDup_nil_2; try done.
  intros l Hl. inversion Hl.
Qed.

(** X6: in a session that starts with sound listeners on [document], they
    stay sound: none is bound twice, each is one of the four [startMove]
    binds, and while [currentMove] holds a drag, the two listeners of that
    drag are bound. *)
Theorem run_dragWired acts w : dragWired w → dragWired (run acts w).
Proof.
  assert (∀ A (m : M A), keeps sameDrag m → keeps (pres dragWired) m) as Hframe.
  { intros A m. apply keeps_weaken. exact dragWired_sameDrag. }
  apply (run_keeps (pres dragWired)).
  - intros c. apply Hframe. sameDrag_prim.
  - intros. apply Hframe, createWindow_start_sameDrag.
  - intros appPath g outcome windowId w' H.
    destruct (fetch_cases outcome) as [Hfail|[c Hc]].
    + eapply dragWired_sameWorld; [by apply createWindow_resume_failed|done].
    + destruct (createWindow_resume_cases appPath g outcome windowId w' c Hc)
        as (w2 & Hsame & [Hw|Hw]);
        (eapply dragWired_sameWorld; [exact Hw|]);
        [|apply dragWired_activated];
        (eapply dragWired_sameDrag; [apply sameStyles_sameDrag, Hsame|]);
        by apply dragWired_assembled.
  - intros. apply Hframe, activateWindow_sameDrag.
  - intros. apply Hframe, closeWindow_sameDrag.
  - apply startMove_dragWired.
  - intros. apply Hframe, handleMove_sameDrag.
  - apply endMove_dragWired.
Qed.

Lemma run_dragWired_witness :
  dragWired emptyWorld
  ∧ dragWired
      (run [CreateResume "/apps/notes.html" size400x300 (okResponse fullMarkup)
              "win_1_aaaa";
            Deliver 1 NTitleBar pressFirst rectFirst;
            Deliver 1 NTitleBar (TouchEvent touchstart [(5, 5)] false) rectFirst;
            DeliverDocument (TouchEvent touchend [] false)] emptyWorld).
Proof.
  pose proof dragWired_emptyWorld as H.
  split; [exact H|]. exact (run_dragWired _ emptyWorld H).
Defined.

Lemma filter_snoc_self {A} `{EqDecision A} (x : A) (l : list A) :
  x ∉ l → filter (λ y, y ≠ x) (l ++ [x]) = l.
Proof.
  intros Hx. rewrite filter_app, filter_ne_id by exact Hx.
  rewrite filter_cons, filter_nil, decide_False by tauto. apply app_nil_r.
Qed.

(** X7: a drag that starts where its two listeners are not yet on
    [document] and then ends leaves the listeners on [document] exactly as
    they were and no drag recorded; all that is left of it is the activation
    of the window. *)
Theorem startMove_endMove_round_trip el event rect w p :
  pressPoint event = Some p →
  let m := mkMoveInfo el p.1 p.2 (rect_left rect) (rect_top rect)
             (bool_decide (type event = touchstart)) in
  moveListener m ∉ documentListeners (w_dom w) →
  endListener m ∉ documentListeners (w_dom w) →
  ∃ w1 w2,
    startMove el event rect w = (Ret (), w1)
    ∧ currentMove (w_state w1) = Some m
    ∧ endMove w1 = (Ret (), w2)
    ∧ documentListeners (w_dom w2) = documentListeners (w_dom w)
    ∧ w_state w2 = set_currentMove None (w_state (activated el w))
    ∧ objects (w_dom w2) = objects (w_dom (activated el w))
    ∧ bodyChildren (w_dom w2) = bodyChildren (w_dom w).
Proof.
  intros Hp m Hmove Hend.
  destruct (startMove_pressed el event rect w p Hp) as [k1 Hstart].
  cbv zeta in Hstart. fold m in Hstart.
  rewrite Hstart.
  match goal with |- ∃ w1 w2, (_, ?w0) = _ ∧ _ => set (w1 := w0) end.
  assert (currentMove (w_state w1) = Some m) as Hm by reflexivity.
  destruct (endMove_active w1 m Hm) as [k2 Hstop].
  exists w1. eexists. split; [reflexivity|]. split; [exact Hm|].
  split; [exact Hstop|].
  subst w1. unfold set_currentMove, set_documentListeners. mproj.
  split; [|by repeat split].
  assert (endListener m ≠ moveListener m) as Hne
    by (unfold endListener, moveListener; destruct (isTouch m); congruence).
  unfold withListener.
  rewrite (decide_False (P := moveListener m ∈ documentListeners (w_dom w)))
    by exact Hmove.
  rewrite decide_False.
  2:{ rewrite elem_of_app, list_elem_of_singleton. tauto. }
  rewrite (filter_app _ (_ ++ _) [_]), filter_snoc_self by exact Hmove.
  rewrite filter_cons, filter_nil.
  rewrite (decide_True (P := endListener m ≠ moveListener m)) by exact Hne.
  by apply filter_snoc_self.
Qed.

Lemma startMove_endMove_round_trip_witness :
  pressPoint pressFirst = Some (Some 120, Some 80)
  ∧ (let m := mkMoveInfo 1 (Some 120, Some 80).1 (Some 120, Some 80).2
                (rect_left rectFirst) (rect_top rectFirst)
                (bool_decide (type pressFirst = touchstart)) in
     (moveListener m ∉ documentListeners (w_dom twoWindows))
     ∧ (endListener m ∉ documentListeners (w_dom twoWindows))
     ∧ ∃ w1 w2,
         startMove 1 pressFirst rectFirst twoWindows = (Ret (), w1)
         ∧ currentMove (w_state w1) = Some m
         ∧ endMove w1 = (Ret (), w2)
         ∧ documentListeners (w_dom w2) = documentListeners (w_dom twoWindows)
         ∧ w_state w2 = set_currentMove None (w_state (activated 1 twoWindows))
         ∧ objects (w_dom w2) = objects (w_dom (activated 1 twoWindows))
         ∧ bodyChildren (w_dom w2) = bodyChildren (w_dom twoWindows)).
Proof.
  split; [reflexivity|]. cbv zeta.
  assert (documentListeners (w_dom twoWindows) = []) as Hl
    by (vm_compute; reflexivity).
  assert (∀ x : EventType * DocHandler, x ∉ documentListeners (w_dom twoWindows))
    as Hno by (intros x; rewrite Hl; apply not_elem_of_nil).
  split; [apply Hno|]. split; [apply Hno|].
  exact (startMove_endMove_round_trip 1 pressFirst rectFirst twoWindows
           (Some 120, Some 80) eq_refl (Hno _) (Hno _)).
Defined.

(** X8: a mouse press followed by a touch press overwrites the record of
    the mouse drag; the [endMove] that follows takes only the touch
    listeners off [document], so [mousemove] and [mouseup] stay registered
    although no drag is recorded any more. *)
Theorem mixed_input_leaves_mouse_listeners el1 el2 ev1 ev2 rect1 rect2 w p :
  type ev1 ≠ touchstart →
  type ev2 = touchstart →
  pressPoint ev2 = Some p →
  ∃ w1 w2 w3,
    startMove el1 ev1 rect1 w = (Ret (), w1)
    ∧ startMove el2 ev2 rect2 w1 = (Ret (), w2)
    ∧ endMove w2 = (Ret (), w3)
    ∧ currentMove (w_state w3) = None
    ∧ (mousemove, DHandleMove) ∈ documentListeners (w_dom w3)
    ∧ (mouseup, DEndMove) ∈ documentListeners (w_dom w3)
    ∧ ((touchmove, DHandleMove) ∉ documentListeners (w_dom w3))
    ∧ ((touchend, DEndMove) ∉ documentListeners (w_dom w3)).
Proof.
  intros Ht1 Ht2 Hp.
  assert (pressPoint ev1 = Some (clientX ev1, clientY ev1)) as Hp1.
  { unfold pressPoint. by rewrite decide_False. }
  destruct (startMove_pressed el1 ev1 rect1 w _ Hp1) as [k1 H1].
  cbv zeta in H1. rewrite (bool_decide_eq_false_2 _ Ht1) in H1.
  match type of H1 with _ = (_, ?w0) => set (w1 := w0) in * end.
  destruct (startMove_pressed el2 ev2 rect2 w1 _ Hp) as [k2 H2].
  cbv zeta in H2. rewrite (bool_decide_eq_true_2 _ Ht2) in H2.
  match type of H2 with
    context [set_currentMove (Some ?m0)] => set (m := m0) in *
  end.
  match type of H2 with _ = (_, ?w0) => set (w2 := w0) in * end.
  assert (currentMove (w_state w2) = Some m) as Hm by reflexivity.
  destruct (endMove_active w2 m Hm) as [k3 H3].
  exists w1, w2. eexists.
  split; [exact H1|]. split; [exact H2|]. split; [exact H3|].
  subst w2 w1. unfold set_currentMove, set_documentListeners. mproj.
  unfold moveListener, endListener. subst m. cbn [isTouch].
  split; [reflexivity|].
  rewrite !list_elem_of_filter, !elem_of_withListener.
  repeat split; try congruence; try tauto.
  all: intuition congruence.
Qed.

Lemma mixed_input_leaves_mouse_listeners_witness :
  type pressFirst ≠ touchstart
  ∧ type (TouchEvent touchstart [(300, 200)] false) = touchstart
  ∧ pressPoint (TouchEvent touchstart [(300, 200)] false)
    = Some (Some 300, Some 200)
  ∧ ∃ w1 w2 w3,
      startMove 1 pressFirst rectFirst twoWindows = (Ret (), w1)
      ∧ startMove 2 (TouchEvent touchstart [(300, 200)] false) rectSecond w1
        = (Ret (), w2)
      ∧ endMove w2 = (Ret (), w3)
      ∧ currentMove (w_state w3) = None
      ∧ (mousemove, DHandleMove) ∈ documentListeners (w_dom w3)
      ∧ (mouseup, DEndMove) ∈ documentListeners (w_dom w3)
      ∧ ((touchmove, DHandleMove) ∉ documentListeners (w_dom w3))
      ∧ ((touchend, DEndMove) ∉ documentListeners (w_dom w3)).
Proof.
  assert (type pressFirst ≠ touchstart) as H1 by discriminate.
  split; [exact H1|]. split; [reflexivity|]. split; [reflexivity|].
  exact (mixed_input_leaves_mouse_listeners 1 2 pressFirst
           (TouchEvent touchstart [(300, 200)] false) rectFirst rectSecond
           twoWindows (Some 300, Some 200)
           H1 eq_refl eq_refl).
Defined.

(** X9: a [touchstart] that carries no touch point makes [startMove] throw
    a [TypeError] at [event.touches[0].clientX]; the window has already been
    focused by then, and neither the drag record nor the listeners on
    [document] have been touched. *)
Theorem startMove_without_touch el event rect w :
  type event = touchstart →
  touches event = None ∨ touches event = Some [] →
  ∃ msg w',
    startMove el event rect w = (Throw (TypeError msg), w')
    ∧ getActiveWindow w' = Some el
    ∧ maxZIndex (w_state w') = maxZIndex (w_state w) + 1
    ∧ zIndexOf el w' = zIndexOf el (activated el w)
    ∧ currentMove (w_state w') = currentMove (w_state w)
    ∧ documentListeners (w_dom w') = documentListeners (w_dom w)
    ∧ getWindows w' = getWindows w.
Proof.
  intros Ht Hf.
  assert (pressPoint event = None) as Hp.
  { unfold pressPoint. rewrite decide_True by exact Ht.
    by destruct Hf as [-> | ->]. }
  destruct (startMove_thrown el event rect w Hp) as (msg & k & Hrun).
  exists msg. eexists. split; [exact Hrun|].
  unfold getActiveWindow, getWindows, zIndexOf. mproj.
  rewrite activated_state, activated_documentListeners.
  destruct w as [[ws z a cm] d k0]. by mproj.
Qed.

Lemma startMove_without_touch_witness :
  type (TouchEvent touchstart [] false) = touchstart
  ∧ (touches (TouchEvent touchstart [] false) = None
     ∨ touches (TouchEvent touchstart [] false) = Some [])
  ∧ ∃ msg w',
      startMove 1 (TouchEvent touchstart [] false) rectFirst twoWindows
      = (Throw (TypeError msg), w')
      ∧ getActiveWindow w' = Some 1%positive
      ∧ maxZIndex (w_state w') = maxZIndex (w_state twoWindows) + 1
      ∧ zIndexOf 1 w' = zIndexOf 1 (activated 1 twoWindows)
      ∧ currentMove (w_state w') = currentMove (w_state twoWindows)
      ∧ documentListeners (w_dom w') = documentListeners (w_dom twoWindows)
      ∧ getWindows w' = getWindows twoWindows.
Proof.
  split; [reflexivity|]. split; [right; reflexivity|].
  exact (startMove_without_touch 1 (TouchEvent touchstart [] false) rectFirst
           twoWindows eq_refl (or_intror eq_refl)).
Defined.

(** ** Closing *)

Lemma closeWindow_returns el w : (closeWindow el w).1 = Ret ().
Proof.
  destruct (decide (activeWindow (w_state w) = Some el)) as [Ha|Ha].
  - by rewrite (close_active_run el w Ha).
  - by rewrite (close_inactive_run el w Ha).
Qed.

Lemma withoutWindow_absent el ws :
  el ∉ element <$> ws → withoutWindow el ws = ws.
Proof.
  intros Hel. unfold withoutWindow.
  destruct (list_find _ ws) as [[index found]|] eqn:Hfind; [|done].
  apply list_find_Some in Hfind as (Hlook & Hfound & _).
  exfalso. apply Hel, list_elem_of_fmap. exists found.
  split; [done|]. by eapply list_elem_of_lookup_2.
Qed.

Lemma closeWindow_elements el w :
  NoDup (getWindows w) →
  getWindows (closeWindow el w).2 = filter (λ r, r ≠ el) (getWindows w).
Proof.
  intros Hnd. unfold getWindows. cbn [fst].
  destruct (closeWindow_registry el w) as (-> & _ & _).
  by apply withoutWindow_elements.
Qed.

Lemma closeWindow_not_active el w :
  NoDup (getWindows w) →
  activeWindow (w_state (closeWindow el w).2) ≠ Some el.
Proof.
  intros Hnd.
  destruct (decide (activeWindow (w_state w) = Some el)) as [Ha|Ha].
  - rewrite (close_active_run el w Ha). cbv zeta. cbn [snd]. mproj.
    destruct (last (withoutWindow el (windows (w_state w)))) as [win|] eqn:Hl.
    + rewrite activated_state. mproj. intros [= Heq].
      apply last_Some_elem_of in Hl.
      assert (element win ∈ element <$> withoutWindow el (windows (w_state w)))
        as Hin by (apply list_elem_of_fmap; eauto).
      rewrite withoutWindow_elements in Hin by exact Hnd.
      apply list_elem_of_filter in Hin as [Hne _]. by apply Hne.
    + by mproj.
  - rewrite (close_inactive_run el w Ha). cbn [snd]. mproj.
    by destruct (w_state w).
Qed.

Lemma NoDup_twoWindows : NoDup (getWindows twoWindows).
Proof.
  assert (getWindows twoWindows = [1%positive; 2%positive]) as ->
    by (vm_compute; reflexivity).
  apply NoDup_cons. split; [|apply NoDup_singleton].
  rewrite list_elem_of_singleton. discriminate.
Qed.

(** X10: with every window registered once, [closeWindow] leaves the
    element neither registered, nor attached to [document.body], nor active;
    the other windows stay registered in their order, and the call
    returns. *)
Theorem closeWindow_removes el w :
  NoDup (getWindows w) →
  ∃ w',
    closeWindow el w = (Ret (), w')
    ∧ getWindows w' = filter (λ r, r ≠ el) (getWindows w)
    ∧ bodyChildren (w_dom w') = filter (λ r, r ≠ el) (bodyChildren (w_dom w))
    ∧ (el ∉ getWindows w')
    ∧ (el ∉ bodyChildren (w_dom w'))
    ∧ getActiveWindow w' ≠ Some el.
Proof.
  intros Hnd. exists (closeWindow el w).2.
  split. { rewrite <- (closeWindow_returns el w). by destruct (closeWindow el w). }
  pose proof (closeWindow_elements el w Hnd) as Hws.
  destruct (closeWindow_registry el w) as (_ & Hbody & _).
  rewrite Hws, Hbody. repeat split.
  - rewrite list_elem_of_filter. tauto.
  - rewrite list_elem_of_filter. tauto.
  - by apply closeWindow_not_active.
Qed.

Lemma closeWindow_removes_witness :
  NoDup (getWindows twoWindows)
  ∧ ∃ w',
      closeWindow 1 twoWindows = (Ret (), w')
      ∧ getWindows w' = filter (λ r, r ≠ 1%positive) (getWindows twoWindows)
      ∧ bodyChildren (w_dom w')
        = filter (λ r, r ≠ 1%positive) (bodyChildren (w_dom twoWindows))
      ∧ (1%positive ∉ getWindows w')
      ∧ (1%positive ∉ bodyChildren (w_dom w'))
      ∧ getActiveWindow w' ≠ Some 1%positive.
Proof.
  pose proof NoDup_twoWindows as H.
  split; [exact H|]. exact (closeWindow_removes 1 twoWindows H).
Defined.

(** X11: closing a window a second time changes nothing but the console:
    the state and the document are as the first [closeWindow] left
    them. *)
Theorem closeWindow_twice el w :
  NoDup (getWindows w) →
  ∃ w1 w2,
    closeWindow el w = (Ret (), w1)
    ∧ closeWindow el w1 = (Ret (), w2)
    ∧ w_state w2 = w_state w1
    ∧ w_dom w2 = w_dom w1.
Proof.
  intros Hnd. exists (closeWindow el w).2.
  pose proof (closeWindow_not_active el w Hnd) as Hact.
  pose proof (closeWindow_elements el w Hnd) as Hws.
  destruct (closeWindow_registry el w) as (_ & Hbody & _).
  pose proof (closeWindow_returns el w) as Hret.
  destruct (closeWindow el w) as [res w1]. cbn [fst snd] in *. subst res.
  rewrite (close_inactive_run el w1 Hact). eexists.
  split; [reflexivity|]. split; [reflexivity|]. mproj.
  unfold getWindows in Hws. cbn [fst] in Hws.
  rewrite withoutWindow_absent, filter_ne_id.
  - destruct w1 as [[ws z a m] [o b l] k]. done.
  - rewrite Hbody, list_elem_of_filter. tauto.
  - rewrite Hws, list_elem_of_filter. tauto.
Qed.

Lemma closeWindow_twice_witness :
  NoDup (getWindows twoWindows)
  ∧ ∃ w1 w2,
      closeWindow 2 twoWindows = (Ret (), w1)
      ∧ closeWindow 2 w1 = (Ret (), w2)
      ∧ w_state w2 = w_state w1
      ∧ w_dom w2 = w_dom w1.
Proof.
  pose proof NoDup_twoWindows as H.
  split; [exact H|]. exact (closeWindow_twice 2 twoWindows H).
Defined.

(** X12: [closeWindow] never ends a drag: the drag record and the listeners
    on [document] are as before the call, also when the window closed is the
    one being dragged. *)
Theorem closeWindow_keeps_drag el w :
  currentMove (w_state (closeWindow el w).2) = currentMove (w_state w)
  ∧ documentListeners (w_dom (closeWindow el w).2) = documentListeners (w_dom w).
Proof. exact (closeWindow_sameDrag el w). Qed.

(** ** Events on a window *)

Lemma deliver_run r n event rect w :
  deliver r n event rect w
  = forEach (filter (λ l, l_node l = n ∧ l_type l = type event) (listenersOf r w))
      (λ l, reported (runHandler (l_handler l) r event rect)) w.
Proof.
  destruct w as [s [o b l] k]. unfold deliver, listenersOf. mrun. reflexivity.
Qed.

Lemma reported_returns (m : M unit) w w' :
  m w = (Ret (), w') → reported m w = (Ret (), w').
Proof. unfold reported, try_catch. by intros ->. Qed.

Lemma forEach_skip {A} (l : list A) (f : A → M unit) w :
  (∀ x, x ∈ l → f x w = (Ret (), w)) → forEach l f w = (Ret (), w).
Proof.
  induction l as [|x l IH]; intros H; [done|].
  cbn [forEach]. unfold mbind, M_bind, bind.
  rewrite (H x) by apply list_elem_of_here.
  apply IH. intros y Hy. apply H. by apply list_elem_of_further.
Qed.

(** Every listener [bindWindowEvents] binds on the title bar goes through
    [createEventHandler]. *)
Lemma wiring_titleBar c l :
  l ∈ wiring c → l_node l = NTitleBar →
  ∃ inner, l_handler l = HGuarded (f_closeButton c) inner.
Proof.
  unfold wiring. destruct (f_titleBar c); [|by intros ?%elem_of_nil].
  destruct (f_windowBody c), (f_closeButton c);
    rewrite ?elem_of_app, ?elem_of_cons, ?elem_of_nil;
    intros H Hn; repeat destruct H as [H|H]; subst; try done; eauto.
Qed.

(** The listeners of the title bar for a press, in the order they were
    bound. *)
Lemma wiring_press c b t :
  f_titleBar c = Some b → t = mousedown ∨ t = touchstart →
  filter (λ l, l_node l = NTitleBar ∧ l_type l = t) (wiring c)
  = [mkListener NTitleBar t (HGuarded (f_closeButton c) HActivate);
     mkListener NTitleBar t (HGuarded (f_closeButton c) HStartMove)].
Proof.
  unfold wiring. intros -> [-> | ->];
    destruct (f_windowBody c), (f_closeButton c); reflexivity.
Qed.

(** The listeners of the close control. *)
Lemma wiring_close c b t :
  f_titleBar c = Some b → f_closeButton c = true →
  t = click ∨ t = touchend →
  filter (λ l, l_node l = NCloseButton ∧ l_type l = t) (wiring c)
  = [mkListener NCloseButton t (if decide (t = click) then HClose else HTouchClose)].
Proof.
  unfold wiring. intros -> -> [-> | ->];
    destruct (f_windowBody c); reflexivity.
Qed.

(** X13: on a window wired by [bindWindowEvents], a press on the title bar
    that lands on the close control runs neither [activateWindow] nor
    [startMove]: whatever the type of the event, nothing changes. *)
Theorem press_on_close_control_ignored r c event rect w :
  listenersOf r w = wiring c →
  f_closeButton c = true →
  targetOnClose event = true →
  deliver r NTitleBar event rect w = (Ret (), w).
Proof.
  intros Hl Hc Ht. rewrite deliver_run, Hl. apply forEach_skip.
  intros l [[Hn _] Hin]%list_elem_of_filter.
  destruct (wiring_titleBar c l Hin Hn) as [inner ->].
  apply reported_returns. cbn [runHandler]. by rewrite Hc, Ht.
Qed.

Lemma press_on_close_control_ignored_witness :
  listenersOf 1 twoWindows = wiring fullMarkup
  ∧ f_closeButton fullMarkup = true
  ∧ targetOnClose (MouseEvent mousedown 120 80 true) = true
  ∧ deliver 1 NTitleBar (MouseEvent mousedown 120 80 true) rectFirst twoWindows
    = (Ret (), twoWindows).
Proof.
  assert (listenersOf 1 twoWindows = wiring fullMarkup) as H
    by (vm_compute; reflexivity).
  split; [exact H|]. split; [reflexivity|]. split; [reflexivity|].
  exact (press_on_close_control_ignored 1 fullMarkup
           (MouseEvent mousedown 120 80 true) rectFirst twoWindows
           H eq_refl eq_refl).
Defined.

(** X14: a press elsewhere on the title bar of a wired window runs the two
    listeners bound there, in binding order: [activateWindow], then
    [startMove], which activates again.  The window is focused and dragged
    from the pressed point, and [maxZIndex] has grown by two. *)
Theorem title_bar_press_focuses_and_drags r c b event rect w p :
  listenersOf r w = wiring c →
  f_titleBar c = Some b →
  f_closeButton c && targetOnClose event = false →
  type event = mousedown ∨ type event = touchstart →
  pressPoint event = Some p →
  ∃ w',
    deliver r NTitleBar event rect w = (Ret (), w')
    ∧ getActiveWindow w' = Some r
    ∧ maxZIndex (w_state w') = maxZIndex (w_state w) + 2
    ∧ zIndexOf r w' = Some (maxZIndex (w_state w) + 2)
    ∧ currentMove (w_state w')
      = Some (mkMoveInfo r p.1 p.2 (rect_left rect) (rect_top rect)
                (bool_decide (type event = touchstart)))
    ∧ getWindows w' = getWindows w.
Proof.
  intros Hl Hb Hguard Ht Hp.
  assert (is_Some (objects (w_dom w) !! r)) as Hr.
  { unfold listenersOf, wiring in Hl. rewrite Hb in Hl.
    destruct (objects (w_dom w) !! r); [eauto|discriminate]. }
  rewrite deliver_run, Hl, (wiring_press c b _ Hb Ht).
  cbn [forEach l_handler runHandler]. rewrite Hguard.
  unfold mbind, M_bind, bind.
  rewrite (reported_returns _ _ _ (activateWindow_run r w)).
  destruct (startMove_pressed r event rect (activated r w) p Hp) as [k Hrun].
  rewrite (reported_returns _ _ _ Hrun).
  eexists. split; [reflexivity|].
  unfold getActiveWindow, getWindows, zIndexOf, set_currentMove,
    set_documentListeners. mproj.
  rewrite !activated_state. mproj.
  assert (is_Some (objects (w_dom (activated r w)) !! r)) as Hr'.
  { rewrite activated_lookup. by apply fmap_is_Some. }
  pose proof (activated_zIndexOf r (activated r w) Hr') as Hz.
  unfold zIndexOf in Hz. rewrite Hz, activated_state. mproj.
  repeat split; try reflexivity; try lia; f_equal; lia.
Qed.

Lemma title_bar_press_focuses_and_drags_witness :
  listenersOf 1 twoWindows = wiring fullMarkup
  ∧ f_titleBar fullMarkup = Some false
  ∧ f_closeButton fullMarkup && targetOnClose pressFirst = false
  ∧ (type pressFirst = mousedown ∨ type pressFirst = touchstart)
  ∧ pressPoint pressFirst = Some (Some 120, Some 80)
  ∧ ∃ w',
      deliver 1 NTitleBar pressFirst rectFirst twoWindows = (Ret (), w')
      ∧ getActiveWindow w' = Some 1%positive
      ∧ maxZIndex (w_state w') = maxZIndex (w_state twoWindows) + 2
      ∧ zIndexOf 1 w' = Some (maxZIndex (w_state twoWindows) + 2)
      ∧ currentMove (w_state w')
        = Some (mkMoveInfo 1 (Some 120, Some 80).1 (Some 120, Some 80).2
                  (rect_left rectFirst) (rect_top rectFirst)
                  (bool_decide (type pressFirst = touchstart)))
      ∧ getWindows w' = getWindows twoWindows.
Proof.
  assert (listenersOf 1 twoWindows = wiring fullMarkup) as H
    by (vm_compute; reflexivity).
  split; [exact H|]. split; [reflexivity|]. split; [reflexivity|].
  split; [left; reflexivity|]. split; [reflexivity|].
  exact (title_bar_press_focuses_and_drags 1 fullMarkup false pressFirst
           rectFirst twoWindows (Some 120, Some 80)
           H eq_refl eq_refl (or_introl eq_refl) eq_refl).
Defined.

(** The window [closeWindow] activates in place of the one it closed is the
    one registered last. *)
Lemma closeWindow_active_last el w :
  activeWindow (w_state w) = Some el →
  getActiveWindow (closeWindow el w).2 = last (getWindows (closeWindow el w).2).
Proof.
  intros Ha. rewrite (close_active_run el w Ha). cbv zeta. cbn [snd].
  unfold getActiveWindow, getWindows. mproj. rewrite fmap_last.
  destruct (last (withoutWindow el (windows (w_state w)))) as [win|] eqn:Hl.
  - rewrite activated_state. mproj. by rewrite Hl.
  - mproj. by rewrite Hl.
Qed.

(** X15: a window opened from markup with a title bar and a close control
    is closed again by a click or a touch on that control: the windows
    registered before are registered as before, the new element is off the
    page, and the window registered last before the creation is the active
    one. *)
Theorem create_then_close appPath g outcome windowId c b event rect w :
  fetched c outcome →
  wiringCompletes c = true →
  f_titleBar c = Some b →
  f_closeButton c = true →
  type event = click ∨ type event = touchend →
  registryOk w →
  ∃ r w1 w2,
    createWindow_resume appPath g outcome windowId w = (Ret (Some r), w1)
    ∧ deliver r NCloseButton event rect w1 = (Ret (), w2)
    ∧ getWindows w2 = getWindows w
    ∧ (r ∉ bodyChildren (w_dom w2))
    ∧ getActiveWindow w2 = last (getWindows w).
Proof.
  intros Hf Hc Hb Hcb Ht (Hnd & Hobj & _).
  destruct (createWindow_resume_spec appPath g outcome windowId c w Hf Hc)
    as (w1 & Hrun & Hst & Hr & Hbody & _).
  cbv zeta in *. set (r := fresh (dom (objects (w_dom w)))) in *.
  assert (r ∉ getWindows w) as Hfresh.
  { intros Hin. apply Hobj in Hin. apply elem_of_dom in Hin.
    by apply (is_fresh (dom (objects (w_dom w)))). }
  assert (getWindows w1 = getWindows w ++ [r]) as Hws1.
  { unfold getWindows. rewrite Hst. mproj. by rewrite fmap_app. }
  assert (NoDup (getWindows w1)) as Hnd1.
  { rewrite Hws1. apply NoDup_app. split; [exact Hnd|]. split.
    - intros x Hx ->%list_elem_of_singleton. by apply Hfresh.
    - apply NoDup_singleton. }
  assert (activeWindow (w_state w1) = Some r) as Ha by (by rewrite Hst).
  exists r, w1, (closeWindow r w1).2. split; [exact Hrun|]. split.
  { rewrite deliver_run. unfold listenersOf. rewrite Hr.
    cbn [from_option listeners]. rewrite (wiring_close c b _ Hb Hcb Ht).
    cbn [forEach l_handler]. unfold mbind, M_bind, bind.
    pose proof (closeWindow_returns r w1) as Hret.
    assert (closeWindow r w1 = (Ret (), (closeWindow r w1).2)) as Hclose
      by (rewrite <- Hret; by destruct (closeWindow r w1)).
    assert (runHandler (if decide (type event = click) then HClose else HTouchClose)
              r event rect = closeWindow r) as -> by (by case_decide).
    by rewrite (reported_returns _ _ _ Hclose). }
  rewrite (closeWindow_active_last r w1 Ha).
  rewrite (closeWindow_elements r w1 Hnd1), Hws1, filter_snoc_self by exact Hfresh.
  destruct (closeWindow_registry r w1) as (_ & -> & _).
  repeat split. rewrite list_elem_of_filter. tauto.
Qed.

Lemma registryOk_oneWindow : registryOk oneWindow.
Proof.
  unfold oneWindow, createWindow.
  assert (createWindow_start "/apps/notes.html" None emptyWorld
          = (Ret None, (createWindow_start "/apps/notes.html" None emptyWorld).2))
    as Hstart by reflexivity.
  unfold mbind, M_bind, bind. rewrite Hstart.
  apply createWindow_resume_registryOk.
  eapply registryOk_sameRegistry;
    [apply (createWindow_start_sameRegistry "/apps/notes.html" None emptyWorld)|].
  apply registryOk_emptyWorld.
Qed.

Lemma create_then_close_witness :
  fetched fullMarkup (okResponse fullMarkup)
  ∧ wiringCompletes fullMarkup = true
  ∧ f_titleBar fullMarkup = Some false
  ∧ f_closeButton fullMarkup = true
  ∧ (type (MouseEvent click 10 10 true) = click
     ∨ type (MouseEvent click 10 10 true) = touchend)
  ∧ registryOk oneWindow
  ∧ ∃ r w1 w2,
      createWindow_resume "/apps/paint.html" size400x300 (okResponse fullMarkup)
        "win_2_bbbb" oneWindow = (Ret (Some r), w1)
      ∧ deliver r NCloseButton (MouseEvent click 10 10 true) rectSecond w1
        = (Ret (), w2)
      ∧ getWindows w2 = getWindows oneWindow
      ∧ (r ∉ bodyChildren (w_dom w2))
      ∧ getActiveWindow w2 = last (getWindows oneWindow).
Proof.
  assert (fetched fullMarkup (okResponse fullMarkup)) as Hf
    by (exists 200, "OK"; reflexivity).
  pose proof registryOk_oneWindow as Hok.
  split; [exact Hf|]. split; [reflexivity|]. split; [reflexivity|].
  split; [reflexivity|]. split; [left; reflexivity|]. split; [exact Hok|].
  exact (create_then_close "/apps/paint.html" size400x300 (okResponse fullMarkup)
           "win_2_bbbb" fullMarkup false (MouseEvent click 10 10 true)
           rectSecond oneWindow Hf eq_refl eq_refl eq_refl
           (or_introl eq_refl) Hok).
Defined.

(** ** Events on the document *)

Lemma filter_unique {A} (P : A → Prop) `{∀ x, Decision (P x)} (l : list A) x :
  NoDup l → x ∈ l → P x → (∀ y, y ∈ l → P y → y = x) → filter P l = [x].
Proof.
  induction l as [|a l IH]; intros Hnd Hx HP Huniq;
    [by apply elem_of_nil in Hx|].
  apply NoDup_cons in Hnd as [Ha Hnd]. rewrite filter_cons.
  assert (∀ y, y ∈ l → P y → y = x) as Huniq'
    by (intros y Hy; apply Huniq; by apply list_elem_of_further).
  apply elem_of_cons in Hx as [<-|Hx].
  - rewrite decide_True by done. f_equal.
    destruct (filter P l) as [|y l'] eqn:Hf; [done|].
    assert (y ∈ filter P l) as Hy by (rewrite Hf; apply list_elem_of_here).
    apply list_elem_of_filter in Hy as [HPy Hy].
    rewrite (Huniq' y Hy HPy) in Hy. done.
  - case_decide as HPa; [|by apply IH].
    rewrite (Huniq a) in Ha by (done || apply list_elem_of_here). done.
Qed.

Lemma reported_then_ret (m : M unit) w : (reported m;; mret ()) w = reported m w.
Proof.
  unfold mbind, M_bind, bind, reported, try_catch, emit, mret, M_ret, ret.
  by destruct (m w) as [[[]|e] w'].
Qed.

Lemma endMove_returns w : (endMove w).1 = Ret ().
Proof.
  destruct (currentMove (w_state w)) as [m|] eqn:Hm.
  - by destruct (endMove_active w m Hm) as [k ->].
  - by rewrite (endMove_idle w Hm).
Qed.

(** X16: while a drag is recorded and the listeners on [document] are those
    [startMove] registers, an event of the move type of the drag that
    reaches [document] runs [handleMove] once and nothing else, and an event
    of its end type runs [endMove] once and nothing else. *)
Theorem document_event_dispatch w m event :
  dragWired w →
  currentMove (w_state w) = Some m →
  (type event = (moveListener m).1 →
   deliverDocument event w = reported (handleMove event) w)
  ∧ (type event = (endListener m).1 →
     deliverDocument event w = endMove w).
Proof.
  intros (Hnd & Hsub & Hcur) Hm. destruct (Hcur m Hm) as [Hmove Hend].
  assert (∀ l, l ∈ documentListeners (w_dom w) →
               l.1 = (moveListener m).1 → l = moveListener m) as Humove.
  { intros l Hl%Hsub. unfold dragListeners, moveListener in *.
    rewrite !elem_of_cons, elem_of_nil in Hl.
    destruct (isTouch m); cbn [fst];
      intros Heq; repeat destruct Hl as [Hl|Hl]; subst; try done. }
  assert (∀ l, l ∈ documentListeners (w_dom w) →
               l.1 = (endListener m).1 → l = endListener m) as Huend.
  { intros l Hl%Hsub. unfold dragListeners, endListener in *.
    rewrite !elem_of_cons, elem_of_nil in Hl.
    destruct (isTouch m); cbn [fst];
      intros Heq; repeat destruct Hl as [Hl|Hl]; subst; try done. }
  assert (deliverDocument event w
          = forEach (filter (λ l, l.1 = type event) (documentListeners (w_dom w)))
              (λ l, reported (match l.2 with
                              | DHandleMove => handleMove event
                              | DEndMove => endMove
                              end)) w) as Hrun.
  { destruct w as [s [o b l] k]. unfold deliverDocument. mrun. reflexivity. }
  split; intros Ht; rewrite Hrun, Ht.
  - rewrite (filter_unique _ _ (moveListener m)); try done.
    cbn [forEach]. by rewrite reported_then_ret.
  - rewrite (filter_unique _ _ (endListener m)); try done.
    cbn [forEach]. rewrite reported_then_ret.
    unfold endListener. cbn [snd].
    pose proof (endMove_returns w) as Hret.
    destruct (endMove w) as [res w'] eqn:He. cbn [fst] in Hret. subst res.
    by apply reported_returns.
Qed.

Lemma dragWired_draggingFirst : dragWired draggingFirst.
Proof.
  assert (documentListeners (w_dom draggingFirst)
          = [(mousemove, DHandleMove); (mouseup, DEndMove)]) as Hl
    by (vm_compute; reflexivity).
  assert (currentMove (w_state draggingFirst)
          = Some (mkMoveInfo 1 (Some 120) (Some 80) (Some 100) (Some 50) false))
    as Hm by (vm_compute; reflexivity).
  unfold dragWired, dragListeners. rewrite Hl, Hm. split; [|split].
  - apply NoDup_cons. split; [|apply NoDup_singleton].
    rewrite list_elem_of_singleton. discriminate.
  - intros l. rewrite !elem_of_cons. tauto.
  - intros m [= <-]. unfold moveListener, endListener. cbn [isTouch].
    rewrite !elem_of_cons. tauto.
Qed.

Lemma document_event_dispatch_witness :
  dragWired draggingFirst
  ∧ currentMove (w_state draggingFirst)
    = Some (mkMoveInfo 1 (Some 120) (Some 80) (Some 100) (Some 50) false)
  ∧ (type moveFirst
     = (moveListener (mkMoveInfo 1 (Some 120) (Some 80) (Some 100) (Some 50) false)).1 →
     deliverDocument moveFirst draggingFirst
     = reported (handleMove moveFirst) draggingFirst)
  ∧ (type moveFirst
     = (endListener (mkMoveInfo 1 (Some 120) (Some 80) (Some 100) (Some 50) false)).1 →
     deliverDocument moveFirst draggingFirst = endMove draggingFirst).
Proof.
  pose proof dragWired_draggingFirst as Hw.
  assert (currentMove (w_state draggingFirst)
          = Some (mkMoveInfo 1 (Some 120) (Some 80) (Some 100) (Some 50) false))
    as Hm by (vm_compute; reflexivity).
  split; [exact Hw|]. split; [exact Hm|].
  exact (document_event_dispatch draggingFirst _ moveFirst Hw Hm).
Defined.

(** ** What [createWindow] returns and registers *)

(** [createWindow] catches whatever is thrown after the duplicate check:
    it returns, and it returns an element only when the markup was fetched
    and the wiring ran to its end. *)
Lemma createWindow_resume_result appPath g outcome windowId w :
  ∃ result w',
    createWindow_resume appPath g outcome windowId w = (Ret result, w')
    ∧ (result = None
       ∨ ∃ c, fetched c outcome ∧ wiringCompletes c = true).
Proof.
  destruct (fetch_cases outcome) as [Hfail|[c Hc]].
  - destruct w as [s d k]. unfold createWindow_resume.
    destruct outcome as [e|ok status statusText text]; cbn [fetchFailed] in Hfail.
    + mrun. do 2 eexists. split; [reflexivity|by left].
    + destruct Hfail as [->|[e ->]]; [|destruct ok]; mrun; cbn [negb];
        do 2 eexists; (split; [reflexivity|by left]).
  - destruct (wiringCompletes c) eqn:Hw.
    + destruct (createWindow_resume_run appPath g outcome windowId w c Hc Hw)
        as (k1 & k2 & ->).
      do 2 eexists. split; [reflexivity|]. right. by exists c.
    + destruct Hc as (status & statusText & ->).
      destruct c as [[b|] cb [] []]; try discriminate.
      destruct w as [[ws z a m] [o bc l] k].
      unfold createWindow_resume. mrun. cbn [negb].
      rewrite !alter_insert_eq. erun.
      match goal with
      | |- context [bindWindowEvents ?r ?W] =>
          edestruct (bindWindowEvents_throws r W) as (msg & w1 & Hrun & _);
            [apply lookup_insert_eq|reflexivity|reflexivity|reflexivity|]
      end.
      rewrite Hrun. destruct w1 as [s1 [o1 b1 l1] k1]. mrun.
      do 2 eexists. split; [reflexivity|by left].
Qed.

Lemma createWindow_resume_returned appPath g outcome windowId w :
  ∃ result w',
    createWindow_resume appPath g outcome windowId w = (Ret result, w')
    ∧ ∀ r, result = Some r → r ∈ getWindows w' ∧ getActiveWindow w' = Some r.
Proof.
  destruct (createWindow_resume_result appPath g outcome windowId w)
    as (result & w' & Hrun & [->|(c & Hc & Hw)]).
  { rewrite Hrun. do 2 eexists. split; [reflexivity|]. intros r. discriminate. }
  destruct (createWindow_resume_spec appPath g outcome windowId c w Hc Hw)
    as (w1 & Hrun1 & Hst & _).
  rewrite Hrun1. do 2 eexists. split; [reflexivity|]. intros r [= <-].
  unfold getWindows, getActiveWindow. rewrite Hst. mproj.
  split; [|done]. rewrite fmap_app. set_solver.
Qed.

(** X17: [createWindow] never throws, whatever the fetch delivers and
    whatever the markup holds; an element it returns is a registered window
    and the active one. *)
Theorem createWindow_returns appPath g checkDuplicate outcome windowId w :
  ∃ result w',
    createWindow appPath g checkDuplicate outcome windowId w = (Ret result, w')
    ∧ ∀ r, result = Some r → r ∈ getWindows w' ∧ getActiveWindow w' = Some r.
Proof.
  destruct (default false checkDuplicate) eqn:Hcd;
    [destruct (list_find (hasAppPath appPath) (windows (w_state w)))
       as [[index win]|] eqn:Hfind|].
  - assert (checkDuplicate = Some true) as ->
      by (destruct checkDuplicate as [[]|]; done).
    rewrite (duplicate_found_run appPath g outcome windowId w index win Hfind).
    do 2 eexists. split; [reflexivity|]. intros r [= <-].
    unfold getWindows, getActiveWindow. rewrite activated_state. mproj.
    split; [|done]. apply list_find_Some in Hfind as (Hlook & _).
    apply list_elem_of_fmap. exists win. split; [done|].
    by eapply list_elem_of_lookup_2.
  - rewrite createWindow_fetches by (by right).
    apply createWindow_resume_returned.
  - rewrite createWindow_fetches by (by left).
    apply createWindow_resume_returned.
Qed.




(** ** What a move writes *)

(** X19: [handleMove] writes nothing but the [left] and [top] of the dragged
    window: the state object, the children of [document.body], the listeners
    on [document], every other element, and the id, the markup, the
    listeners and the other style properties of the dragged element are as
    before, whatever the event. *)
Theorem handleMove_frame event w :
  w_state (handleMove event w).2 = w_state w
  ∧ bodyChildren (w_dom (handleMove event w).2) = bodyChildren (w_dom w)
  ∧ documentListeners (w_dom (handleMove event w).2) = documentListeners (w_dom w)
  ∧ (∀ r, Some r ≠ windowElement <$> currentMove (w_state w) →
       objects (w_dom (handleMove event w).2) !! r = objects (w_dom w) !! r)
  ∧ (∀ r,
       (λ e, (dataset_windowId e, content e, listeners e))
         <$> objects (w_dom (handleMove event w).2) !! r
       = (λ e, (dataset_windowId e, content e, listeners e))
           <$> objects (w_dom w) !! r)
  ∧ (∀ r,
       (λ st, (position st, width st, maxHeight st, bottom st, right st, zIndex st))
         <$> styleOf r (handleMove event w).2
       = (λ st, (position st, width st, maxHeight st, bottom st, right st, zIndex st))
           <$> styleOf r w).
Proof.
  destruct (currentMove (w_state w)) as [m|] eqn:Hm;
    [|by rewrite (handleMove_idle event w Hm)].
  destruct w as [[ws z a cm] [o b l] k]. mproj_in Hm. subst cm.
  unfold handleMove, styleOf. mrun.
  assert (∀ f g r,
            (r ≠ windowElement m →
             alter (set_style g) (windowElement m)
               (alter (set_style f) (windowElement m) o) !! r = o !! r)
            ∧ (λ e, (dataset_windowId e, content e, listeners e))
                <$> alter (set_style g) (windowElement m)
                      (alter (set_style f) (windowElement m) o) !! r
              = (λ e, (dataset_windowId e, content e, listeners e)) <$> o !! r)
    as Hobj.
  { intros f g r. split.
    - intros Hne. by rewrite !lookup_alter_ne.
    - destruct (decide (r = windowElement m)) as [->|Hne].
      + rewrite !lookup_alter_eq. by destruct (o !! windowElement m).
      + by rewrite !lookup_alter_ne. }
  assert (∀ x y r,
            (λ st, (position st, width st, maxHeight st, bottom st, right st,
                    zIndex st))
              <$> (style
                     <$> alter (set_style (set_top y)) (windowElement m)
                           (alter (set_style (set_left x)) (windowElement m) o) !! r)
            = (λ st, (position st, width st, maxHeight st, bottom st, right st,
                      zIndex st))
                <$> (style <$> o !! r)) as Hstyle.
  { intros x y r. destruct (decide (r = windowElement m)) as [->|Hne].
    - rewrite !lookup_alter_eq. by destruct (o !! windowElement m).
    - by rewrite !lookup_alter_ne. }
  destruct (isTouch m); [destruct (touches event) as [[|[x y] ts]|]|];
    mrun; (repeat split; try done; intros r; try intros Hne;
           try apply Hstyle; try apply Hobj;
           try (intros ->; by apply Hne)).
Qed.
